(** Verification of cc-alchemy-statusline (src/index.mjs): a shallow embedding
    of the script and proofs about it.

    Numbers are IEEE 754 binary64 values, as the Standard Library specifies
    them (SpecFloat); strings are byte strings (UTF-8). The script runs in a
    state monad over the file system and a trace of the effects it performs;
    a thrown error and process.exit are outcomes of a computation. The
    built-ins of Node.js the script calls (JSON, dates, conversions between
    strings and numbers, path.join) are the fields of a class Runtime: every
    general theorem holds for any runtime. The module Node gives one
    instance, used to run the script on concrete inputs.

    Assumptions on the surroundings: spawning the detached child succeeds,
    process.cwd() and console.log do not fail, and a write fails only on a
    path that cannot be opened. *)

From Stdlib Require Import ZArith Lia Bool List String Ascii DecimalString.
From Stdlib Require Import Floats.SpecFloat.
From stdpp Require Import gmap strings list.
Open Scope string_scope.
Open Scope Z_scope.
Open Scope list_scope.
Set Warnings "-register-all".

(** * Part I: definitions *)

Module B64.
Definition prec : Z := 53.
Definition emax : Z := 1024.
Definition num := spec_float.
Definition of_Z (z : Z) : num := binary_normalize prec emax z 0 false.
Definition div := SFdiv prec emax.
Definition mul := SFmul prec emax.
Definition sub := SFsub prec emax.
Definition ltb : num -> num -> bool := SFltb.
Definition geb (x y : num) : bool := SFleb y x.
Definition gtb (x y : num) : bool := SFltb y x.
Definition is_nan (x : num) : bool := match x with S754_nan => true | _ => false end.
Definition is_zero (x : num) : bool := match x with S754_zero _ => true | _ => false end.

Definition floor (x : num) : num :=
  match x with
  | S754_finite s m e =>
      if 0 <? e then x
      else
        let q := Z.pos m / 2 ^ (- e) in
        if s then
          if Z.pos m mod 2 ^ (- e) =? 0 then of_Z (- q) else of_Z (- q - 1)
        else of_Z q
  | _ => x
  end.

Definition round (x : num) : num :=
  match x with
  | S754_finite s m e =>
      if 0 <=? e then x
      else
        let r := (2 * cond_Zopp s (Z.pos m) + 2 ^ (- e)) / 2 ^ (1 - e) in
        if r =? 0 then S754_zero s else of_Z r
  | _ => x
  end.

Definition rem (n d : num) : num :=
  match n, d with
  | S754_nan, _ | _, S754_nan => S754_nan
  | S754_infinity _, _ => S754_nan
  | _, S754_zero _ => S754_nan
  | _, S754_infinity _ => n
  | S754_zero _, _ => n
  | S754_finite sn mn en, S754_finite _ md ed =>
      let e := Z.min en ed in
      let r := (Z.pos mn * 2 ^ (en - e)) mod (Z.pos md * 2 ^ (ed - e)) in
      binary_normalize prec emax (cond_Zopp sn r) e sn
  end.

Definition max (a b : num) : num :=
  match SFcompare a b with
  | None => S754_nan
  | Some Lt => b
  | Some Gt => a
  | Some Eq => match a with S754_zero true => b | _ => a end
  end.

Definition to_int (x : num) : option Z :=
  match x with
  | S754_zero _ => Some 0
  | S754_finite s m e =>
      if 0 <? e then None
      else if Z.pos m mod 2 ^ (- e) =? 0
           then Some (cond_Zopp s (Z.pos m / 2 ^ (- e)))
           else None
  | _ => None
  end.

Definition tenths (x : num) : option Z :=
  match x with
  | S754_zero _ => Some 0
  | S754_finite _ m e =>
      if 0 <=? e then Some (Z.pos m * 2 ^ e * 10)
      else Some ((20 * Z.pos m + 2 ^ (- e)) / 2 ^ (1 - e))
  | _ => None
  end.
End B64.

(** * Strings *)
Module Str.

Definition chr (n : nat) : string := String (ascii_of_nat n) EmptyString.
Definition ESC : string := chr 27.
Definition BEL : string := chr 7.
Definition DQ : string := chr 34.
Definition NBSP : string := chr 194 +:+ chr 160.
Definition CHECK : string := chr 226 +:+ chr 156 +:+ chr 147.

Definition of_Z (z : Z) : string := NilZero.string_of_int (Z.to_int z).

Definition is_space (a : ascii) : bool :=
  let n := nat_of_ascii a in
  ((9 <=? n)%nat && (n <=? 13)%nat) || (n =? 32)%nat.

Fixpoint ltrim (s : string) : string :=
  match s with
  | String a r => if is_space a then ltrim r else s
  | EmptyString => EmptyString
  end.

Fixpoint rtrim (s : string) : string :=
  match s with
  | EmptyString => EmptyString
  | String a r =>
      match rtrim r with
      | EmptyString => if is_space a then EmptyString else String a EmptyString
      | r' => String a r'
      end
  end.

Definition trim (s : string) : string := rtrim (ltrim s).

Definition startsWith (s p : string) : bool := String.prefix p s.

Definition drop (n : nat) (s : string) : string :=
  String.substring n (String.length s - n) s.

Definition take (n : nat) (s : string) : string := String.substring 0 n s.

Definition endsWith (s p : string) : bool :=
  (String.length p <=? String.length s)%nat
  && String.eqb (drop (String.length s - String.length p) s) p.

Fixpoint replace_first (pat rep s : string) : string :=
  if String.prefix pat s then rep +:+ drop (String.length pat) s
  else match s with
       | EmptyString => EmptyString
       | String a r => String a (replace_first pat rep r)
       end.

Fixpoint nbsp_spaces (s : string) : string :=
  match s with
  | EmptyString => EmptyString
  | String a r =>
      if Ascii.eqb a " "%char then NBSP +:+ nbsp_spaces r
      else String a (nbsp_spaces r)
  end.

Fixpoint prefixes (s : string) : list string :=
  match s with
  | EmptyString => [EmptyString]
  | String a r => EmptyString :: map (String a) (prefixes r)
  end.

End Str.

(** * JavaScript values *)

Inductive value : Type :=
| VUndef
| VNull
| VBool (b : bool)
| VNum (x : B64.num)
| VStr (s : string)
| VArr (items : list value)
| VObj (fields : list (string * value)).

Definition truthy (v : value) : bool :=
  match v with
  | VUndef | VNull => false
  | VBool b => b
  | VNum x => negb (B64.is_zero x || B64.is_nan x)
  | VStr s => negb (String.eqb s EmptyString)
  | VArr _ | VObj _ => true
  end.

Definition nullish (v : value) : bool :=
  match v with VUndef | VNull => true | _ => false end.

(** [a || b] *)
Definition or_else (a b : value) : value := if truthy a then a else b.

Fixpoint lookup_field (k : string) (fields : list (string * value)) : value :=
  match fields with
  | [] => VUndef
  | (k', v) :: rest => if String.eqb k k' then v else lookup_field k rest
  end.

Fixpoint set_field (k : string) (v : value) (fields : list (string * value))
  : list (string * value) :=
  match fields with
  | [] => [(k, v)]
  | (k', v') :: rest =>
      if String.eqb k k' then (k, v) :: rest else (k', v') :: set_field k v rest
  end.

Definition empty_object : value := VObj [].

(** Outcome of running a piece of the script. *)
Inductive outcome (A : Type) : Type :=
| Ret (a : A)
| Throw
| Exit (code : Z).
Arguments Ret {A} a.
Arguments Throw {A}.
Arguments Exit {A} code.

(** [v.k]: a TypeError on [undefined] and [null]; own properties of an
    object; none of the names the script reads exists on a string, number,
    boolean or array. *)
Definition get (v : value) (k : string) : outcome value :=
  match v with
  | VUndef | VNull => Throw
  | VObj fields => Ret (lookup_field k fields)
  | _ => Ret VUndef
  end.

(** [v?.k] *)
Definition opt_get (v : value) (k : string) : value :=
  match v with
  | VObj fields => lookup_field k fields
  | _ => VUndef
  end.

(** * The JavaScript runtime: built-ins of Node.js the script calls. *)
Class Runtime : Type := {
  JSON_parse : string -> option value;
  JSON_stringify : value -> string;
  JSON_stringify_pretty : value -> string;
  StringToNumber : string -> B64.num;
  ObjectToNumber : value -> B64.num;
  ObjectToString : value -> string;
  Number_toString_other : B64.num -> string;
  Date_getTime : value -> B64.num;
  Date_toISOString : Z -> string;
  path_join : list string -> string
}.

Section Conversions.
Context {RT : Runtime}.

Definition ToNumber (v : value) : B64.num :=
  match v with
  | VUndef => S754_nan
  | VNull => S754_zero false
  | VBool b => if b then B64.of_Z 1 else S754_zero false
  | VNum x => x
  | VStr s => StringToNumber s
  | VArr _ | VObj _ => ObjectToNumber v
  end.

Definition Number_toString (x : B64.num) : string :=
  match x with
  | S754_nan => "NaN"
  | S754_infinity s => if s then "-Infinity" else "Infinity"
  | _ => match B64.to_int x with
         | Some z => Str.of_Z z
         | None => Number_toString_other x
         end
  end.

Definition ToString (v : value) : string :=
  match v with
  | VUndef => "undefined"
  | VNull => "null"
  | VBool b => if b then "true" else "false"
  | VNum x => Number_toString x
  | VStr s => s
  | VArr _ | VObj _ => ObjectToString v
  end.

(** [x.toFixed(1)] *)
Definition toFixed1 (x : B64.num) : string :=
  match x with
  | S754_nan => "NaN"
  | S754_infinity s => if s then "-Infinity" else "Infinity"
  | _ =>
      if B64.geb (SFabs x) (B64.of_Z (10 ^ 21)) then Number_toString x
      else match B64.tenths x with
           | Some n =>
               (match x with S754_finite true _ _ => "-" | _ => EmptyString end)
               +:+ Str.of_Z (n / 10) +:+ "." +:+ Str.of_Z (n mod 10)
           | None => EmptyString
           end
  end.

End Conversions.

(** * The process and its surroundings *)

(** What the remote endpoint does with the one request of a fetch. *)
Inductive fetch_result : Type :=
| NetError
| TimedOut
| Response (status : Z) (body : string).

(** Everything one run of the script reads from outside and cannot change. *)
Record Env : Type := {
  argv : list string;
  stdin_isTTY : bool;
  stdin_data : option string;          (* None: reading descriptor 0 fails *)
  os_platform : string;
  HOME : string;
  process_cwd : string;
  env_vars : gmap string string;
  execFile : string -> list string -> option string -> option string;
                                        (* command, arguments, cwd; None: it throws *)
  powershell_runs : bool;
  cred_read : string -> option string;  (* CredRead of the Windows credential manager *)
  clock : Z;                            (* Date.now(), in milliseconds *)
  http : fetch_result
}.

(** A path of the file system holds a readable file or something that
    cannot be opened (a directory, a file without permission). *)
Inductive file : Type :=
| Readable (content : string)
| Unreadable.

Inductive event : Type :=
| EvExec (cmd : string) (args : list string)
| EvReadStdin
| EvExists (path : string)
| EvRead (path : string)
| EvWrite (path : string) (content : string)
| EvTrigger
| EvSpawn (args : list string) (windowsHide : bool)
| EvRequest (authorization : string)
| EvStdout (line : string).

Record state : Type := {
  fs : gmap string file;
  trace : list event
}.

Definition M (A : Type) : Type := state -> outcome A * state.

Definition ret {A} (a : A) : M A := fun st => (Ret a, st).

Definition bind {A B} (m : M A) (k : A -> M B) : M B :=
  fun st =>
    match m st with
    | (Ret a, st') => k a st'
    | (Throw, st') => (Throw, st')
    | (Exit c, st') => (Exit c, st')
    end.

Notation "'let*' x ':=' m 'in' k" := (bind m (fun x => k))
  (at level 10, x pattern, m at level 100, k at level 200).
Notation "m ';;;' k" := (bind m (fun _ => k))
  (at level 100, k at level 200, right associativity).

Definition throw {A} : M A := fun st => (Throw, st).
Definition process_exit {A} (code : Z) : M A := fun st => (Exit code, st).

Definition lift {A} (o : outcome A) : M A := fun st => (o, st).

(** [try { m } catch { h }]: a thrown error is caught; [process.exit] is not. *)
Definition try_catch {A} (m : M A) (h : M A) : M A :=
  fun st =>
    match m st with
    | (Throw, st') => h st'
    | r => r
    end.

Definition emit (e : event) : M unit :=
  fun st => (Ret tt, {| fs := fs st; trace := trace st ++ [e] |}).

Definition existsSync (p : string) : M bool :=
  fun st => (Ret (bool_decide (is_Some (fs st !! p))),
             {| fs := fs st; trace := trace st ++ [EvExists p] |}).

Definition readFileSync (p : string) : M string :=
  fun st =>
    let st' := {| fs := fs st; trace := trace st ++ [EvRead p] |} in
    match fs st !! p with
    | Some (Readable s) => (Ret s, st')
    | _ => (Throw, st')
    end.

Definition writeFileSync (p : string) (data : string) : M unit :=
  fun st =>
    match fs st !! p with
    | Some Unreadable => (Throw, st)
    | _ => (Ret tt, {| fs := <[p := Readable data]> (fs st);
                       trace := trace st ++ [EvWrite p data] |})
    end.

Definition console_log (line : string) : M unit := emit (EvStdout line).

Section Script.
Context {RT : Runtime} (E : Env).

Definition env_get (k : string) : value :=
  match env_vars E !! k with
  | Some s => VStr s
  | None => VUndef
  end.

Definition JSON_parse_or_throw (s : string) : M value :=
  match JSON_parse s with
  | Some v => ret v
  | None => throw
  end.

(** [execFileSync(cmd, args, {cwd, ...})] with piped or ignored streams. *)
Definition execFileSync (cmd : string) (args : list string) (cwd : option string)
  : M string :=
  emit (EvExec cmd args);;;
  match execFile E cmd args cwd with
  | Some out => ret out
  | None => throw
  end.

(* index.mjs, lines 22 *)
Definition IS_WIN : bool := String.eqb (os_platform E) "win32".
(* index.mjs, lines 24 *)
Definition CACHE_FILE : string := path_join [HOME E; ".claude"; "statusline_cache.json"].
(* index.mjs, lines 25 *)
Definition CREDS_FILE : string := path_join [HOME E; ".claude"; ".credentials.json"].

(** Windows UTF-8 setup at module load. *)
(* index.mjs, lines 28-33 *)
Definition module_init : M unit :=
  if IS_WIN then
    try_catch (let* _ := execFileSync "chcp.com" ["65001"] None in ret tt) (ret tt)
  else ret tt.

(** ** Colors *)
(* index.mjs, lines 36-42 *)
Definition supportsColor : bool :=
  if negb IS_WIN then true
  else if truthy (env_get "WT_SESSION") || truthy (env_get "TERM_PROGRAM") then true
  else if match env_get "ConEmuANSI" with VStr s => String.eqb s "ON" | _ => false end then true
  else if truthy (env_get "COLORTERM") then true
  else false.

(* index.mjs, lines 44 *)
Definition USE_COLOR : bool := supportsColor.

(* index.mjs, lines 45 *)
Definition rgb (r g b : Z) : string :=
  if USE_COLOR
  then Str.ESC +:+ "[38;2;" +:+ Str.of_Z r +:+ ";" +:+ Str.of_Z g +:+ ";" +:+ Str.of_Z b +:+ "m"
  else EmptyString.

(* index.mjs, lines 46 *)
Definition RST : string := if USE_COLOR then Str.ESC +:+ "[0m" else EmptyString.
Definition DIM : string := rgb 108 112 134.
Definition TEXT : string := rgb 205 214 244.
Definition BRANCH : string := rgb 137 180 250.
Definition DIRTY : string := rgb 250 179 135.
Definition GREEN : string := rgb 166 227 161.
Definition YELLOW : string := rgb 249 226 175.
Definition RED : string := rgb 243 139 168.

(* index.mjs, lines 55 *)
Definition pcolor (p : value) : string :=
  if B64.ltb (ToNumber p) (B64.of_Z 50) then GREEN
  else if B64.ltb (ToNumber p) (B64.of_Z 90) then YELLOW
  else RED.

(* index.mjs, lines 57-61 *)
Definition ftok (n : value) : string :=
  if B64.geb (ToNumber n) (B64.of_Z 1000000)
  then toFixed1 (B64.div (ToNumber n) (B64.of_Z 1000000)) +:+ "M"
  else if B64.geb (ToNumber n) (B64.of_Z 1000)
  then Number_toString (B64.floor (B64.div (ToNumber n) (B64.of_Z 1000))) +:+ "k"
  else ToString n.

(* index.mjs, lines 63-64 *)
Definition osc8 (url text : string) : string :=
  if USE_COLOR
  then Str.ESC +:+ "]8;;" +:+ url +:+ Str.BEL +:+ text +:+ Str.ESC +:+ "]8;;" +:+ Str.BEL
  else text.

(* index.mjs, lines 66-72 *)
Definition loadJson (path : string) : M value :=
  try_catch
    (let* ex := existsSync path in
     if ex then
       let* s := readFileSync path in
       JSON_parse_or_throw s
     else ret empty_object)
    (ret empty_object).

(** [cwd] is whatever value the caller passes as the [cwd] option; anything
    but a string, [undefined] or [null] makes [execFileSync] throw at once. *)
(* index.mjs, lines 74-85 *)
Definition exec (cmd : string) (args : list string) (cwd : value) : M string :=
  try_catch
    (match cwd with
     | VStr d => let* out := execFileSync cmd args (Some d) in ret (Str.trim out)
     | VUndef | VNull => let* out := execFileSync cmd args None in ret (Str.trim out)
     | _ => throw
     end)
    (ret EmptyString).

Record git_info : Type := { branch : string; dirty : bool; remote : string }.

(* index.mjs, lines 87-99 *)
Definition gitInfo (cwd : value) : M git_info :=
  let* br := exec "git" ["branch"; "--show-current"] cwd in
  let* br :=
    if String.eqb br EmptyString then
      let* h := exec "git" ["rev-parse"; "--short"; "HEAD"] cwd in
      ret (Str.take 7 h)
    else ret br in
  if String.eqb br EmptyString then ret {| branch := EmptyString; dirty := false; remote := EmptyString |}
  else
    let* st := exec "git" ["status"; "--porcelain"] cwd in
    let dirty := negb (String.eqb st EmptyString) in
    let* url := exec "git" ["remote"; "get-url"; "origin"] cwd in
    let url :=
      if Str.startsWith url "git@github.com:"
      then Str.replace_first "git@github.com:" "https://github.com/" url
      else url in
    let url :=
      if Str.endsWith url ".git" then Str.take (String.length url - 4) url else url in
    ret {| branch := br; dirty := dirty; remote := url |}.

(** ** Token retrieval *)

Definition accessToken_of (v : value) : value :=
  opt_get (opt_get v "claudeAiOauth") "accessToken".

(** Standard output of the PowerShell script: the blob of the first key, in
    order, that [CredRead] finds with a blob size above zero, on a line. *)
Definition win_cred_keys : list string :=
  ["Claude Code-credentials"; "Claude Code"; "claude-code"].

Fixpoint ps_script_output (keys : list string) : string :=
  match keys with
  | [] => EmptyString
  | k :: rest =>
      match cred_read E k with
      | Some blob =>
          if String.eqb blob EmptyString then ps_script_output rest
          else blob +:+ Str.chr 13 +:+ Str.chr 10
      | None => ps_script_output rest
      end
  end.

(* index.mjs, lines 123-153 *)
Definition run_powershell : M string :=
  emit (EvExec "powershell" ["-NoProfile"; "-ExecutionPolicy"; "Bypass"; "-Command"]);;;
  if powershell_runs E then ret (ps_script_output win_cred_keys) else throw.

(* index.mjs, lines 107-118 *)
Definition token_from_keychain : M (option value) :=
  if String.eqb (os_platform E) "darwin" then
    try_catch
      (let* out := execFileSync "security"
                     ["find-generic-password"; "-s"; "Claude Code-credentials"; "-w"] None in
       let raw := Str.trim out in
       let* parsed := JSON_parse_or_throw raw in
       let token := accessToken_of parsed in
       ret (if truthy token then Some token else None))
      (ret None)
  else ret None.

(* index.mjs, lines 120-159 *)
Definition token_from_wincred : M (option value) :=
  if IS_WIN then
    try_catch
      (let* out := run_powershell in
       let raw := Str.trim out in
       if negb (String.eqb raw EmptyString) then
         let* parsed := JSON_parse_or_throw raw in
         let token := accessToken_of parsed in
         ret (if truthy token then Some token else None)
       else ret None)
      (ret None)
  else ret None.

(** [process.env.K || EmptyString] *)
Definition env_or_empty (k : string) : string :=
  match env_vars E !! k with
  | Some s => s
  | None => EmptyString
  end.

(* index.mjs, lines 161-173 *)
Definition credPaths : list string :=
  [CREDS_FILE]
  ++ (if IS_WIN then
        let appdata := env_or_empty "APPDATA" in
        let localappdata := env_or_empty "LOCALAPPDATA" in
        (if negb (String.eqb appdata EmptyString)
         then [path_join [appdata; "Claude"; ".credentials.json"];
               path_join [appdata; "claude-code"; ".credentials.json"]]
         else [])
        ++ (if negb (String.eqb localappdata EmptyString)
            then [path_join [localappdata; "Claude"; ".credentials.json"]]
            else [])
      else []).

(* index.mjs, lines 175-181 *)
Definition token_from_file (p : string) : M (option value) :=
  try_catch
    (let* ex := existsSync p in
     if ex then
       let* s := readFileSync p in
       let* parsed := JSON_parse_or_throw s in
       let token := accessToken_of parsed in
       ret (if truthy token then Some token else None)
     else ret None)
    (ret None).

(* index.mjs, lines 174-184 *)
Fixpoint token_from_files (paths : list string) : M value :=
  match paths with
  | [] => ret VNull
  | p :: rest =>
      let* r := token_from_file p in
      match r with
      | Some token => ret token
      | None => token_from_files rest
      end
  end.

(* index.mjs, lines 102-185 *)
Definition getToken : M value :=
  if truthy (env_get "CLAUDE_CODE_OAUTH_TOKEN") then ret (env_get "CLAUDE_CODE_OAUTH_TOKEN")
  else
    let* r := token_from_keychain in
    match r with
    | Some token => ret token
    | None =>
        let* r := token_from_wincred in
        match r with
        | Some token => ret token
        | None => token_from_files credPaths
        end
    end.

(** ** Usage fetch *)

(** Node refuses a header value holding a control character other than a
    tab: [request] then throws before anything is sent. *)
Definition valid_header_char (a : ascii) : bool :=
  let n := nat_of_ascii a in
  (n =? 9)%nat || ((32 <=? n)%nat && negb (n =? 127)%nat).

Fixpoint valid_header_value (s : string) : bool :=
  match s with
  | EmptyString => true
  | String a r => valid_header_char a && valid_header_value r
  end.

Fixpoint copy_keys (keys : list string) (data : value) (cache : list (string * value))
  : outcome (list (string * value)) :=
  match keys with
  | [] => Ret cache
  | key :: rest =>
      match get data key with
      | Ret v => copy_keys rest data (if truthy v then set_field key v cache else cache)
      | Throw => Throw
      | Exit c => Exit c
      end
  end.

(* index.mjs, lines 205-215 *)
Definition on_response_end (body : string) : M unit :=
  try_catch
    (let* data := JSON_parse_or_throw body in
     let cache := [("cached_at", VStr (Date_toISOString (clock E)))] in
     let* cache := lift (copy_keys ["five_hour"; "seven_day"] data cache) in
     writeFileSync CACHE_FILE (JSON_stringify (VObj cache)))
    (ret tt).

(* index.mjs, lines 188-225 *)
Definition doFetchRequest (token : value) : M unit :=
  let authorization := "Bearer " +:+ ToString token in
  if valid_header_value authorization then
    emit (EvRequest authorization);;;
    match http E with
    | NetError => ret tt
    | TimedOut => ret tt
    | Response _ body => on_response_end body
    end
  else throw.

(** The event of the spawn records the flag passed after the script path
    and the windowsHide option. *)
(* index.mjs, lines 227-244 *)
Definition fetchUsage : M unit :=
  emit EvTrigger;;;
  let* token := getToken in
  if negb (truthy token) then ret tt
  else emit (EvSpawn ["--fetch-only"] IS_WIN).

(* index.mjs, lines 246-250 *)
Definition fetchOnly : M unit :=
  let* token := getToken in
  if negb (truthy token) then process_exit 1
  else doFetchRequest token.


(** ** Main *)

(** The parenthesised time left until [resetsAt], with its leading space. *)
(* index.mjs, lines 337-345 *)
Definition reset_suffix (resetsAt : value) : string :=
  let now := B64.of_Z (clock E) in
  let secs :=
    B64.max (B64.of_Z 0)
      (B64.floor (B64.div (B64.sub (Date_getTime resetsAt) now) (B64.of_Z 1000))) in
  let h := B64.floor (B64.div secs (B64.of_Z 3600)) in
  let m := B64.floor (B64.div (B64.rem secs (B64.of_Z 3600)) (B64.of_Z 60)) in
  if B64.gtb h (B64.of_Z 24) then
    " " +:+ DIM +:+ "(" +:+ Number_toString (B64.floor (B64.div h (B64.of_Z 24)))
        +:+ "d" +:+ Number_toString (B64.rem h (B64.of_Z 24)) +:+ "h)"
  else if B64.gtb h (B64.of_Z 0) then
    " " +:+ DIM +:+ "(" +:+ Number_toString h +:+ "h" +:+ Number_toString m +:+ "m)"
  else
    " " +:+ DIM +:+ "(" +:+ Number_toString m +:+ "m)".

(* index.mjs, lines 327-351 *)
Definition usage_part (cache : value) (label key : string) : M string :=
  let* p := lift (get cache key) in
  let period := or_else p empty_object in
  let* util := lift (get period "utilization") in
  let* resetsAt := lift (get period "resets_at") in
  if negb (nullish util) then
    let txt := DIM +:+ label +:+ " " +:+ pcolor util
                   +:+ Number_toString (B64.round (ToNumber util)) +:+ "%" in
    let txt := if truthy resetsAt then txt +:+ reset_suffix resetsAt else txt in
    ret (txt +:+ RST)
  else ret (DIM +:+ label +:+ " " +:+ TEXT +:+ "--" +:+ RST).

(* index.mjs, lines 318-323 *)
Definition context_part (data : value) : M string :=
  let* c := lift (get data "context_window") in
  let ctx := or_else c empty_object in
  let* size := lift (get ctx "context_window_size") in
  let cs := or_else size (VNum (B64.of_Z 200000)) in
  let* pct := lift (get ctx "used_percentage") in
  let cp := or_else pct (VNum (B64.of_Z 0)) in
  let ut := B64.floor (B64.div (B64.mul (ToNumber cs) (ToNumber cp)) (B64.of_Z 100)) in
  ret (pcolor cp +:+ ftok (VNum ut) +:+ DIM +:+ "/" +:+ ftok cs +:+ RST).

(* index.mjs, lines 302-305 *)
Definition model_part (data : value) : M string :=
  let* m := lift (get data "model") in
  let model := or_else m empty_object in
  let* dn := lift (get model "display_name") in
  let* id := lift (get model "id") in
  match or_else dn (or_else id (VStr "?")) with
  | VStr s => ret (TEXT +:+ Str.replace_first "Claude " EmptyString s +:+ RST)
  | _ => throw
  end.

(* index.mjs, lines 307-316 *)
Definition branch_part (data : value) : M (list string) :=
  let* ws := lift (get data "workspace") in
  let cwd := or_else (opt_get ws "current_dir") (VStr (process_cwd E)) in
  let* gi := gitInfo cwd in
  if negb (String.eqb (branch gi) EmptyString) then
    let bd := if dirty gi then branch gi +:+ "*" else branch gi in
    let bc := if dirty gi then DIRTY else BRANCH in
    ret [if negb (String.eqb (remote gi) EmptyString)
         then bc +:+ osc8 (remote gi) bd +:+ RST
         else bc +:+ bd +:+ RST]
  else ret [].

(* index.mjs, lines 299-356 *)
Definition render (data cache : value) : M unit :=
  let SEP := " " +:+ DIM +:+ "|" +:+ RST +:+ " " in
  let* p_model := model_part data in
  let* p_branch := branch_part data in
  let* p_ctx := context_part data in
  let* p_5h := usage_part cache "5h" "five_hour" in
  let* p_7d := usage_part cache "7d" "seven_day" in
  let parts := (p_model :: p_branch ++ [p_ctx; p_5h; p_7d])%list in
  let output := String.concat SEP parts in
  console_log (Str.ESC +:+ "[0m" +:+ Str.nbsp_spaces output).

Definition value_is_string (v : value) (s : string) : bool :=
  match v with VStr s' => String.eqb s' s | _ => false end.

(** The branch taken when standard input is a terminal. *)
(* index.mjs, lines 259-279 *)
Definition configure : M unit :=
  let settingsPath := path_join [HOME E; ".claude"; "settings.json"] in
  let* settings :=
    try_catch
      (let* ex := existsSync settingsPath in
       if ex then
         let* s := readFileSync settingsPath in
         JSON_parse_or_throw s
       else ret empty_object)
      (ret empty_object) in
  let cmd := "npx cc-alchemy-statusline" in
  if value_is_string (opt_get (opt_get settings "statusLine") "command") cmd then
    console_log (Str.CHECK +:+ " Already configured as Claude Code statusline.")
  else
    let statusLine := VObj [("type", VStr "command"); ("command", VStr cmd)] in
    let* settings' :=
      match settings with
      | VObj fields => ret (VObj (set_field "statusLine" statusLine fields))
      | VArr items => ret (VArr items)
      | _ => throw
      end in
    writeFileSync settingsPath (JSON_stringify_pretty settings');;;
    console_log (Str.CHECK +:+ " Claude Code statusline configured!");;;
    console_log "  Restart Claude Code to apply.".

(** Reading and parsing standard input; [None] once the fallback line is out. *)
(* index.mjs, lines 281-293 *)
Definition read_session : M (option value) :=
  try_catch
    (emit EvReadStdin;;;
     match stdin_data E with
     | None => throw
     | Some raw =>
         let input := Str.trim raw in
         if String.eqb input EmptyString then console_log "No data";;; ret None
         else let* data := JSON_parse_or_throw input in ret (Some data)
     end)
    (console_log "No data";;; ret None).

(* index.mjs, lines 253-357 *)
Definition main : M unit :=
  if existsb (String.eqb "--fetch-only") (argv E) then fetchOnly
  else if stdin_isTTY E then configure
  else
    let* session := read_session in
    match session with
    | None => ret tt
    | Some data =>
        let* cache := loadJson CACHE_FILE in
        fetchUsage;;;
        render data cache
    end.

(* index.mjs, lines 28-33, 359 *)
Definition script : M unit := module_init;;; main.

Definition exit_status (o : outcome unit) : Z :=
  match o with
  | Ret _ => 0
  | Throw => 1
  | Exit c => c
  end.

(** One run of the process from a file system: exit status and final state. *)
Definition run (files : gmap string file) : Z * state :=
  let '(o, st) := script {| fs := files; trace := [] |} in
  (exit_status o, st).

Definition stdout_of (t : list event) : list string :=
  omap (fun e => match e with EvStdout l => Some l | _ => None end) t.

(** The file another process finds at [p] while [writeFileSync p data] is
    under way: Node opens [p] with flag w, which empties it, and then writes
    the bytes, so a reader meets a prefix of [data]. *)
Definition during_write (files : gmap string file) (p data : string)
  : list (gmap string file) :=
  map (fun c => <[p := Readable c]> files) (Str.prefixes data).

(** What [loadJson] of another process returns from a file system. *)
Definition load_from (files : gmap string file) : outcome value :=
  fst (loadJson CACHE_FILE {| fs := files; trace := [] |}).

End Script.

(** * A reference runtime: JSON text, numbers and dates as Node.js reads
      and prints them, used to run the script on concrete inputs. *)
Module Node.

Definition code (a : ascii) : Z := Z.of_nat (nat_of_ascii a).

Definition is_ws (a : ascii) : bool :=
  let n := code a in (n =? 32) || (n =? 9) || (n =? 10) || (n =? 13).

Fixpoint skip_ws (s : string) : string :=
  match s with
  | String a r => if is_ws a then skip_ws r else s
  | EmptyString => EmptyString
  end.

Definition is_digit (a : ascii) : bool := (48 <=? code a) && (code a <=? 57).

(** Leading decimal digits of [s]: their value continuing [acc], how many,
    and the rest. *)
Fixpoint digits (s : string) (acc : Z) (n : Z) : Z * Z * string :=
  match s with
  | String a r => if is_digit a then digits r (10 * acc + (code a - 48)) (n + 1)
                  else (acc, n, s)
  | EmptyString => (acc, n, s)
  end.

(** The double nearest to [m * 10^e10], ties to even. *)
Definition decimal_to_num (neg : bool) (m e10 : Z) : B64.num :=
  if m =? 0 then S754_zero neg
  else if 0 <=? e10
  then binary_normalize B64.prec B64.emax (cond_Zopp neg (m * 10 ^ e10)) 0 neg
  else SFdiv B64.prec B64.emax
         (S754_finite neg (Z.to_pos m) 0)
         (S754_finite false (Z.to_pos (10 ^ (- e10))) 0).

Definition parse_exponent (s : string) : option (Z * string) :=
  match s with
  | String a r =>
      if (code a =? 101) || (code a =? 69) then
        let '(neg, r) :=
          match r with
          | String b r' => if code b =? 45 then (true, r')
                           else if code b =? 43 then (false, r') else (false, r)
          | EmptyString => (false, r)
          end in
        let '(v, n, rest) := digits r 0 0 in
        if n =? 0 then None else Some (cond_Zopp neg v, rest)
      else Some (0, s)
  | EmptyString => Some (0, s)
  end.

Definition parse_fraction (s : string) (int : Z) : option (Z * Z * string) :=
  match s with
  | String a r =>
      if code a =? 46 then
        let '(v, n, rest) := digits r int 0 in
        if n =? 0 then None else Some (v, n, rest)
      else Some (int, 0, s)
  | EmptyString => Some (int, 0, s)
  end.

Definition parse_number (s : string) : option (B64.num * string) :=
  let '(neg, s) :=
    match s with
    | String a r => if code a =? 45 then (true, r) else (false, s)
    | EmptyString => (false, s)
    end in
  match s with
  | String a r =>
      if is_digit a then
        let '(int, rest) :=
          if code a =? 48 then (0, r)
          else let '(v, _, rest) := digits s 0 0 in (v, rest) in
        match parse_fraction rest int with
        | Some (m, fracn, rest) =>
            match parse_exponent rest with
            | Some (e, rest) => Some (decimal_to_num neg m (e - fracn), rest)
            | None => None
            end
        | None => None
        end
      else None
  | EmptyString => None
  end.

Definition hex_val (a : ascii) : option Z :=
  let n := code a in
  if (48 <=? n) && (n <=? 57) then Some (n - 48)
  else if (65 <=? n) && (n <=? 70) then Some (n - 55)
  else if (97 <=? n) && (n <=? 102) then Some (n - 87)
  else None.

Definition hex4 (a b c d : ascii) : option Z :=
  match hex_val a, hex_val b, hex_val c, hex_val d with
  | Some x, Some y, Some z, Some w => Some (((x * 16 + y) * 16 + z) * 16 + w)
  | _, _, _, _ => None
  end.

Definition byte (n : Z) : string := Str.chr (Z.to_nat n).

Definition utf8 (cp : Z) : string :=
  if cp <? 128 then byte cp
  else if cp <? 2048 then byte (192 + cp / 64) +:+ byte (128 + cp mod 64)
  else if cp <? 65536
  then byte (224 + cp / 4096) +:+ byte (128 + (cp / 64) mod 64) +:+ byte (128 + cp mod 64)
  else byte (240 + cp / 262144) +:+ byte (128 + (cp / 4096) mod 64)
       +:+ byte (128 + (cp / 64) mod 64) +:+ byte (128 + cp mod 64).

(** The characters of a string literal after its opening quote. *)
Fixpoint parse_chars (s : string) : option (string * string) :=
  match s with
  | EmptyString => None
  | String a r =>
      if code a =? 34 then Some (EmptyString, r)
      else if code a =? 92 then
        match r with
        | String b r' =>
            let simple (c : string) :=
              match parse_chars r' with
              | Some (t, rest) => Some (c +:+ t, rest)
              | None => None
              end in
            if code b =? 34 then simple (byte 34)
            else if code b =? 92 then simple (byte 92)
            else if code b =? 47 then simple (byte 47)
            else if code b =? 98 then simple (byte 8)
            else if code b =? 102 then simple (byte 12)
            else if code b =? 110 then simple (byte 10)
            else if code b =? 114 then simple (byte 13)
            else if code b =? 116 then simple (byte 9)
            else if code b =? 117 then
              match r' with
              | String h1 (String h2 (String h3 (String h4 r''))) =>
                  match hex4 h1 h2 h3 h4 with
                  | Some u =>
                      match parse_chars r'' with
                      | Some (t, rest) => Some (utf8 u +:+ t, rest)
                      | None => None
                      end
                  | None => None
                  end
              | _ => None
              end
            else None
        | EmptyString => None
        end
      else if code a <? 32 then None
      else match parse_chars r with
           | Some (t, rest) => Some (String a t, rest)
           | None => None
           end
  end.

Definition expect (lit : string) (v : value) (s : string) : option (value * string) :=
  if String.prefix lit s then Some (v, Str.drop (String.length lit) s) else None.

Fixpoint parse_value (fuel : nat) (s : string) : option (value * string) :=
  match fuel with
  | O => None
  | S f =>
      match skip_ws s with
      | EmptyString => None
      | String a r as s' =>
          if code a =? 123 then
            match skip_ws r with
            | String c r' =>
                if code c =? 125 then Some (VObj [], r') else parse_members f (skip_ws r) []
            | EmptyString => None
            end
          else if code a =? 91 then
            match skip_ws r with
            | String c r' =>
                if code c =? 93 then Some (VArr [], r') else parse_elements f r []
            | EmptyString => None
            end
          else if code a =? 34 then
            match parse_chars r with
            | Some (t, rest) => Some (VStr t, rest)
            | None => None
            end
          else if code a =? 116 then expect "true" (VBool true) s'
          else if code a =? 102 then expect "false" (VBool false) s'
          else if code a =? 110 then expect "null" VNull s'
          else match parse_number s' with
               | Some (x, rest) => Some (VNum x, rest)
               | None => None
               end
      end
  end
with parse_elements (fuel : nat) (s : string) (acc : list value)
  : option (value * string) :=
  match fuel with
  | O => None
  | S f =>
      match parse_value f s with
      | Some (v, rest) =>
          match skip_ws rest with
          | String c r' =>
              if code c =? 44 then parse_elements f r' (acc ++ [v])
              else if code c =? 93 then Some (VArr (acc ++ [v]), r')
              else None
          | EmptyString => None
          end
      | None => None
      end
  end
with parse_members (fuel : nat) (s : string) (acc : list (string * value))
  : option (value * string) :=
  match fuel with
  | O => None
  | S f =>
      match s with
      | String q r =>
          if code q =? 34 then
            match parse_chars r with
            | Some (k, rest) =>
                match skip_ws rest with
                | String c r' =>
                    if code c =? 58 then
                      match parse_value f r' with
                      | Some (v, rest') =>
                          match skip_ws rest' with
                          | String d r'' =>
                              if code d =? 44
                              then parse_members f (skip_ws r'') (set_field k v acc)
                              else if code d =? 125
                              then Some (VObj (set_field k v acc), r'')
                              else None
                          | EmptyString => None
                          end
                      | None => None
                      end
                    else None
                | EmptyString => None
                end
            | None => None
            end
          else None
      | EmptyString => None
      end
  end.

Definition JSON_parse (text : string) : option value :=
  match parse_value (2 * String.length text + 2) text with
  | Some (v, rest) =>
      match skip_ws rest with
      | EmptyString => Some v
      | _ => None
      end
  | None => None
  end.


(** ** Printing numbers *)

Definition num_eqb (x y : B64.num) : bool := SFeqb x y.

(** [lt_pow10 m e k]: is [m * 2^e < 10^k]? *)
Definition lt_pow10 (m e k : Z) : bool :=
  let lhs := m * 2 ^ (Z.max 0 e) * 10 ^ (Z.max 0 (- k)) in
  let rhs := 10 ^ (Z.max 0 k) * 2 ^ (Z.max 0 (- e)) in
  lhs <? rhs.

(** The [k] with [10^(k-1) <= m * 2^e < 10^k], searched upwards from a
    lower estimate. *)
Fixpoint magnitude (fuel : nat) (m e k : Z) : Z :=
  match fuel with
  | O => k
  | S f => if lt_pow10 m e k then k else magnitude f m e (k + 1)
  end.

Definition magnitude10 (m e : Z) : Z :=
  magnitude 8 m e (((Z.log2 m + e) * 30103) / 100000 - 2).

(** [floor (m * 2^e / 10^p)] *)
Definition scaled_floor (m e p : Z) : Z :=
  (m * 2 ^ (Z.max 0 e) * 10 ^ (Z.max 0 (- p)))
  / (10 ^ (Z.max 0 p) * 2 ^ (Z.max 0 (- e))).

(** Twice the distance of [c * 10^p] to [m * 2^e], in units of the common
    denominator. *)
Definition distance (m e c p : Z) : Z :=
  Z.abs (c * 10 ^ (Z.max 0 p) * 2 ^ (Z.max 0 (- e))
         - m * 2 ^ (Z.max 0 e) * 10 ^ (Z.max 0 (- p))).

(** The shortest decimal [c * 10^p] that reads back as [x = m * 2^e]. *)
Fixpoint shortest (fuel : nat) (nd : Z) (x : B64.num) (m e k : Z) : Z * Z :=
  let p := k - nd in
  let lo := scaled_floor m e p in
  let hi := lo + 1 in
  let ok_lo := num_eqb (decimal_to_num false lo p) x in
  let ok_hi := num_eqb (decimal_to_num false hi p) x in
  let pick_lo := (lo, p) in
  let pick_hi := (hi, p) in
  match fuel with
  | O => pick_lo
  | S f =>
      if ok_lo && ok_hi then
        match distance m e lo p ?= distance m e hi p with
        | Lt => pick_lo
        | Gt => pick_hi
        | Eq => if Z.even lo then pick_lo else pick_hi
        end
      else if ok_lo then pick_lo
      else if ok_hi then pick_hi
      else shortest f (nd + 1) x m e k
  end.

Fixpoint zeros (n : nat) : string :=
  match n with O => EmptyString | S k => "0" +:+ zeros k end.

(** Strip trailing zeros of a decimal [c * 10^p]. *)
Fixpoint strip (fuel : nat) (c p : Z) : Z * Z :=
  match fuel with
  | O => (c, p)
  | S f => if (c mod 10 =? 0) && negb (c =? 0) then strip f (c / 10) (p + 1) else (c, p)
  end.

Definition format_decimal (c p : Z) : string :=
  let ds := Str.of_Z c in
  let k := Z.of_nat (String.length ds) in
  let n := k + p in
  if (k <=? n) && (n <=? 21) then ds +:+ zeros (Z.to_nat (n - k))
  else if (0 <? n) && (n <=? 21)
  then Str.take (Z.to_nat n) ds +:+ "." +:+ Str.drop (Z.to_nat n) ds
  else if (-6 <? n) && (n <=? 0) then "0." +:+ zeros (Z.to_nat (- n)) +:+ ds
  else
    let ex := n - 1 in
    let es := (if ex <? 0 then "-" else "+") +:+ Str.of_Z (Z.abs ex) in
    if k =? 1 then ds +:+ "e" +:+ es
    else Str.take 1 ds +:+ "." +:+ Str.drop 1 ds +:+ "e" +:+ es.

Definition Number_toString_other (x : B64.num) : string :=
  match x with
  | S754_finite s m e =>
      let k := magnitude10 (Z.pos m) e in
      let '(c, p) := shortest 17 1 (S754_finite false m e) (Z.pos m) e k in
      let '(c, p) := strip 17 c p in
      (if s then "-" else EmptyString) +:+ format_decimal c p
  | S754_zero _ => "0"
  | S754_nan => "NaN"
  | S754_infinity s => if s then "-Infinity" else "Infinity"
  end.

Definition Number_toString (x : B64.num) : string :=
  match x with
  | S754_nan => "NaN"
  | S754_infinity s => if s then "-Infinity" else "Infinity"
  | _ => match B64.to_int x with
         | Some z => Str.of_Z z
         | None => Number_toString_other x
         end
  end.


(** ** Printing JSON *)

Definition hex_digit (n : Z) : string :=
  if n <? 10 then byte (48 + n) else byte (87 + n).

Fixpoint escape (s : string) : string :=
  match s with
  | EmptyString => EmptyString
  | String a r =>
      let n := code a in
      (if n =? 34 then byte 92 +:+ byte 34
       else if n =? 92 then byte 92 +:+ byte 92
       else if n =? 8 then byte 92 +:+ "b"
       else if n =? 12 then byte 92 +:+ "f"
       else if n =? 10 then byte 92 +:+ "n"
       else if n =? 13 then byte 92 +:+ "r"
       else if n =? 9 then byte 92 +:+ "t"
       else if n <? 32 then byte 92 +:+ "u00" +:+ hex_digit (n / 16) +:+ hex_digit (n mod 16)
       else String a EmptyString) +:+ escape r
  end.

Definition quote (s : string) : string := byte 34 +:+ escape s +:+ byte 34.

Definition stringify_num (x : B64.num) : string :=
  match x with
  | S754_nan | S754_infinity _ => "null"
  | _ => Number_toString x
  end.

Definition is_undef (v : value) : bool :=
  match v with VUndef => true | _ => false end.

Fixpoint spaces (n : nat) : string :=
  match n with O => EmptyString | S k => " " +:+ spaces k end.

(** [JSON.stringify(v, null, gap)] with [gap] spaces of indentation per
    level; no line breaks at all when [gap] is zero. *)
Fixpoint stringify (gap : nat) (depth : nat) (v : value) : string :=
  let nl d := if (gap =? 0)%nat then EmptyString else byte 10 +:+ spaces (gap * d) in
  let colon := if (gap =? 0)%nat then ":" else ": " in
  match v with
  | VUndef => "null"
  | VNull => "null"
  | VBool b => if b then "true" else "false"
  | VNum x => stringify_num x
  | VStr s => quote s
  | VArr items =>
      match items with
      | [] => "[]"
      | _ =>
          "[" +:+ nl (S depth)
          +:+ String.concat ("," +:+ nl (S depth)) (map (stringify gap (S depth)) items)
          +:+ nl depth +:+ "]"
      end
  | VObj fields =>
      let shown :=
        (fix go (fs : list (string * value)) : list string :=
           match fs with
           | [] => []
           | (k, w) :: rest =>
               if is_undef w then go rest
               else (quote k +:+ colon +:+ stringify gap (S depth) w) :: go rest
           end) fields in
      match shown with
      | [] => "{}"
      | _ =>
          "{" +:+ nl (S depth) +:+ String.concat ("," +:+ nl (S depth)) shown
          +:+ nl depth +:+ "}"
      end
  end.

Definition JSON_stringify (v : value) : string := stringify 0 0 v.
Definition JSON_stringify_pretty (v : value) : string := stringify 2 0 v.

(** ** Conversions of strings and objects *)

Definition parse_decimal_literal (s : string) : option B64.num :=
  let '(neg, s) :=
    match s with
    | String a r => if code a =? 45 then (true, r)
                    else if code a =? 43 then (false, r) else (false, s)
    | EmptyString => (false, s)
    end in
  if String.eqb s "Infinity" then Some (S754_infinity neg)
  else
    let '(int, n1, rest) := digits s 0 0 in
    let '(m, n2, rest) :=
      match rest with
      | String a r => if code a =? 46 then digits r int 0 else (int, 0, rest)
      | EmptyString => (int, 0, rest)
      end in
    if (n1 + n2 =? 0) then None
    else match parse_exponent rest with
         | Some (e, EmptyString) => Some (decimal_to_num neg m (e - n2))
         | _ => None
         end.

Definition StringToNumber (s : string) : B64.num :=
  let t := Str.trim s in
  if String.eqb t EmptyString then S754_zero false
  else match parse_decimal_literal t with
       | Some x => x
       | None => S754_nan
       end.

Fixpoint ObjectToString (v : value) : string :=
  match v with
  | VArr items =>
      String.concat ","
        (map (fun w => match w with
                       | VUndef | VNull => EmptyString
                       | VBool b => if b then "true" else "false"
                       | VNum x => Number_toString x
                       | VStr s => s
                       | _ => ObjectToString w
                       end) items)
  | VObj _ => "[object Object]"
  | _ => EmptyString
  end.

Definition ObjectToNumber (v : value) : B64.num := StringToNumber (ObjectToString v).

(** ** Dates *)

Definition pad (width : nat) (z : Z) : string :=
  let d := Str.of_Z z in zeros (width - String.length d) +:+ d.

(** Civil date of a day count since 1970-01-01. *)
Definition civil_from_days (days : Z) : Z * Z * Z :=
  let z := days + 719468 in
  let era := z / 146097 in
  let doe := z - era * 146097 in
  let yoe := (doe - doe / 1460 + doe / 36524 - doe / 146096) / 365 in
  let y := yoe + era * 400 in
  let doy := doe - (365 * yoe + yoe / 4 - yoe / 100) in
  let mp := (5 * doy + 2) / 153 in
  let d := doy - (153 * mp + 2) / 5 + 1 in
  let m := if mp <? 10 then mp + 3 else mp - 9 in
  (if m <=? 2 then y + 1 else y, m, d).

Definition days_from_civil (y m d : Z) : Z :=
  let y := if m <=? 2 then y - 1 else y in
  let era := y / 400 in
  let yoe := y - era * 400 in
  let doy := (153 * (if 2 <? m then m - 3 else m + 9) + 2) / 5 + d - 1 in
  let doe := yoe * 365 + yoe / 4 - yoe / 100 + doy in
  era * 146097 + doe - 719468.

Definition Date_toISOString (ms : Z) : string :=
  let days := ms / 86400000 in
  let t := ms mod 86400000 in
  let '(y, m, d) := civil_from_days days in
  let year :=
    if (0 <=? y) && (y <=? 9999) then pad 4 y
    else (if y <? 0 then "-" else "+") +:+ pad 6 (Z.abs y) in
  year +:+ "-" +:+ pad 2 m +:+ "-" +:+ pad 2 d +:+ "T"
    +:+ pad 2 (t / 3600000) +:+ ":" +:+ pad 2 ((t / 60000) mod 60) +:+ ":"
    +:+ pad 2 ((t / 1000) mod 60) +:+ "." +:+ pad 3 (t mod 1000) +:+ "Z".

(** Exactly [n] digits at the head of [s]. *)
Definition fixed_digits (n : Z) (s : string) : option (Z * string) :=
  let '(v, k, rest) := digits (Str.take (Z.to_nat n) s) 0 0 in
  if (k =? n) then Some (v, Str.drop (Z.to_nat n) s) else None.

Definition expect_char (c : Z) (s : string) : option string :=
  match s with
  | String a r => if code a =? c then Some r else None
  | EmptyString => None
  end.

(** Up to three digits of a fraction of a second as milliseconds; further
    digits are dropped. *)
Definition parse_millis (s : string) : option (Z * string) :=
  let '(_, n, rest) := digits s 0 0 in
  if n =? 0 then None
  else
    let '(v, k, _) := digits (Str.take 3 s) 0 0 in
    Some (v * 10 ^ (3 - k), rest).

Definition parse_offset (s : string) : option Z :=
  match s with
  | String a r =>
      if code a =? 90 then (if String.eqb r EmptyString then Some 0 else None)
      else if (code a =? 43) || (code a =? 45) then
        match fixed_digits 2 r with
        | Some (hh, r1) =>
            match expect_char 58 r1 with
            | Some r2 =>
                match fixed_digits 2 r2 with
                | Some (mm, EmptyString) =>
                    Some ((if code a =? 45 then -1 else 1) * (hh * 60 + mm))
                | _ => None
                end
            | None => None
            end
        | None => None
        end
      else None
  | EmptyString => None
  end.

(** V8 takes any day from 1 to 31 in any month and carries the overflow. *)
Definition valid_date (y m d : Z) : bool :=
  (1 <=? m) && (m <=? 12) && (1 <=? d) && (d <=? 31).

(** [Date.parse] of the date-time format of ECMAScript with an explicit
    offset, and of its date-only form; other texts give [None]. *)
Definition Date_parse (s : string) : option Z :=
  match fixed_digits 4 s with
  | Some (y, r) =>
      match expect_char 45 r with
      | Some r =>
          match fixed_digits 2 r with
          | Some (m, r) =>
              match expect_char 45 r with
              | Some r =>
                  match fixed_digits 2 r with
                  | Some (d, r) =>
                      if negb (valid_date y m d) then None
                      else
                        let day := days_from_civil y m d * 86400000 in
                        match r with
                        | EmptyString => Some day
                        | String a r =>
                            if negb (code a =? 84) then None
                            else
                              match fixed_digits 2 r with
                              | Some (hh, r) =>
                                  match expect_char 58 r with
                                  | Some r =>
                                      match fixed_digits 2 r with
                                      | Some (mi, r) =>
                                          let '(ss, ms, r) :=
                                            match expect_char 58 r with
                                            | Some r1 =>
                                                match fixed_digits 2 r1 with
                                                | Some (ss, r2) =>
                                                    match expect_char 46 r2 with
                                                    | Some r3 =>
                                                        match parse_millis r3 with
                                                        | Some (ms, r4) => (ss, ms, r4)
                                                        | None => (ss, 0, r2)
                                                        end
                                                    | None => (ss, 0, r2)
                                                    end
                                                | None => (0, 0, r)
                                                end
                                            | None => (0, 0, r)
                                            end in
                                          if (24 <=? hh) || (60 <=? mi) || (60 <=? ss) then None
                                          else
                                            match parse_offset r with
                                            | Some off =>
                                                Some (day + hh * 3600000 + mi * 60000
                                                      + ss * 1000 + ms - off * 60000)
                                            | None => None
                                            end
                                      | None => None
                                      end
                                  | None => None
                                  end
                              | None => None
                              end
                        end
                  | None => None
                  end
              | None => None
              end
          | None => None
          end
      | None => None
      end
  | None => None
  end.

(** [TimeClip]: an integral number of milliseconds within the date range. *)
Definition time_clip (x : B64.num) : B64.num :=
  match x with
  | S754_finite s m e =>
      let t := if 0 <=? e then Z.pos m * 2 ^ e else Z.pos m / 2 ^ (- e) in
      if 8640000000000000 <? t then S754_nan
      else if t =? 0 then S754_zero false
      else B64.of_Z (cond_Zopp s t)
  | S754_zero _ => S754_zero false
  | _ => S754_nan
  end.

Definition Date_getTime (v : value) : B64.num :=
  match v with
  | VUndef => S754_nan
  | VNull => S754_zero false
  | VBool b => if b then B64.of_Z 1 else S754_zero false
  | VNum x => time_clip x
  | VStr s => match Date_parse s with
              | Some t => time_clip (B64.of_Z t)
              | None => S754_nan
              end
  | VArr _ | VObj _ =>
      match Date_parse (ObjectToString v) with
      | Some t => time_clip (B64.of_Z t)
      | None => S754_nan
      end
  end.

(** [path.join] on POSIX for segments that need no normalisation. *)
Definition path_join (segments : list string) : string := String.concat "/" segments.

#[export] Instance runtime : Runtime :=
  Build_Runtime JSON_parse JSON_stringify JSON_stringify_pretty StringToNumber
    ObjectToNumber ObjectToString Number_toString_other Date_getTime
    Date_toISOString path_join.

End Node.

(** * Specification-side definitions *)

(** The state [st] after the events [t] have been appended to its trace. *)
Definition logged (st : state) (t : list event) : state :=
  {| fs := fs st; trace := trace st ++ t |}.

Definition is_write (e : event) : Prop :=
  match e with EvWrite _ _ => True | _ => False end.

Definition is_stdout (e : event) : Prop :=
  match e with EvStdout _ => True | _ => False end.

(** [footprint P m]: run from any state, [m] only appends events that
    satisfy [P], and it leaves the files alone unless it appends a write. *)
Definition footprint {A} (P : event -> Prop) (m : M A) : Prop :=
  forall st o st', m st = (o, st') ->
    exists t, trace st' = trace st ++ t /\ Forall P t
              /\ (Forall (fun e => ~ is_write e) t -> fs st' = fs st).


Fixpoint first_some {A} (l : list (option A)) : option A :=
  match l with
  | [] => None
  | Some a :: _ => Some a
  | None :: rest => first_some rest
  end.

Definition is_probe (e : event) : Prop :=
  match e with
  | EvExec _ _ | EvExists _ | EvRead _ => True
  | _ => False
  end.

Section CredentialSources.
Context {RT : Runtime} (E : Env).

(** The credential sources as the specification lists them, each one the
    token it yields or nothing. *)
Definition token_in (text : string) : option value :=
  match JSON_parse text with
  | Some v => if truthy (accessToken_of v) then Some (accessToken_of v) else None
  | None => None
  end.

Definition source_env : option value :=
  if truthy (env_get E "CLAUDE_CODE_OAUTH_TOKEN")
  then Some (env_get E "CLAUDE_CODE_OAUTH_TOKEN") else None.

Definition source_keychain : option value :=
  if String.eqb (os_platform E) "darwin" then
    match execFile E "security"
            ["find-generic-password"; "-s"; "Claude Code-credentials"; "-w"] None with
    | Some out => token_in (Str.trim out)
    | None => None
    end
  else None.

Definition source_wincred : option value :=
  if IS_WIN E && powershell_runs E then
    let raw := Str.trim (ps_script_output E win_cred_keys) in
    if String.eqb raw EmptyString then None else token_in raw
  else None.

Definition source_file (files : gmap string file) (p : string) : option value :=
  match files !! p with
  | Some (Readable text) => token_in text
  | _ => None
  end.

Definition credential_sources (files : gmap string file) : list (option value) :=
  [source_env; source_keychain; source_wincred]
  ++ map (source_file files) (credPaths E).

End CredentialSources.

(** What [loadJson] makes of a path of a file system. *)
Definition loaded `{RT : Runtime} (files : gmap string file) (p : string) : value :=
  match files !! p with
  | Some (Readable text) =>
      match JSON_parse text with
      | Some v => v
      | None => empty_object
      end
  | _ => empty_object
  end.

(** * Definitions used by the statements *)

(** The canonical binary64 form of a positive integer below 2^53. *)
Definition canon (s : bool) (z : positive) : B64.num :=
  let d := Z.pos (digits2_pos z) in
  S754_finite s (Z.to_pos (Z.pos z * 2 ^ (53 - d))) (d - 53).

Definition loc_spec (l : location) (r n : Z) : Prop :=
  match l with
  | loc_Exact => r = 0
  | loc_Inexact Lt => 0 < 2 * r < n
  | loc_Inexact Eq => 2 * r = n
  | loc_Inexact Gt => n < 2 * r
  end.

(** The time left, as the script prints it, from whole seconds. *)
Definition time_left (secs : Z) : string :=
  let h := secs / 3600 in
  let m := (secs mod 3600) / 60 in
  if 24 <? h then "(" +:+ Str.of_Z (h / 24) +:+ "d" +:+ Str.of_Z (h mod 24) +:+ "h)"
  else if 0 <? h then "(" +:+ Str.of_Z h +:+ "h" +:+ Str.of_Z m +:+ "m)"
  else "(" +:+ Str.of_Z m +:+ "m)".

Definition init_events `{RT : Runtime} (E : Env) : list event :=
  if IS_WIN E then [EvExec "chcp.com" ["65001"]] else [].

Definition fetch_only (E : Env) : bool := existsb (String.eqb "--fetch-only") (argv E).

(** The snapshot a parsed answer is turned into. *)
Definition snapshot `{RT : Runtime} (E : Env) (data : value) : value :=
  VObj ([("cached_at", VStr (Date_toISOString (clock E)))]
        ++ (if truthy (opt_get data "five_hour")
            then [("five_hour", opt_get data "five_hour")] else [])
        ++ (if truthy (opt_get data "seven_day")
            then [("seven_day", opt_get data "seven_day")] else [])).

Definition cache_read_events `{RT : Runtime} (E : Env) (files : gmap string file)
  : list event :=
  EvExists (CACHE_FILE E)
  :: match files !! CACHE_FILE E with
     | Some _ => [EvRead (CACHE_FILE E)]
     | None => []
     end.

(** * Sample surroundings, to run the script on concrete inputs *)
Module Sample.

Definition qt (s : string) : string := Str.DQ +:+ s +:+ Str.DQ.

(** A Linux machine where the token is in the environment and git answers. *)
Definition git (cmd : string) (args : list string) (cwd : option string) : option string :=
  if String.eqb cmd "git" then
    match args with
    | ["branch"; _] => Some ("main" +:+ Str.chr 10)
    | ["status"; _] => Some EmptyString
    | ["remote"; _; _] => Some ("git@github.com:craftowen/cc-alchemy-statusline.git" +:+ Str.chr 10)
    | _ => None
    end
  else None.

Definition session (text : string) : Env := {|
  argv := ["node"; "index.mjs"];
  stdin_isTTY := false;
  stdin_data := Some text;
  os_platform := "linux";
  HOME := "/home/dev";
  process_cwd := "/work";
  env_vars := {[ "CLAUDE_CODE_OAUTH_TOKEN" := "sk-token" ]};
  execFile := git;
  powershell_runs := false;
  cred_read := fun _ => None;
  clock := 1762000000000;
  http := NetError
|}.

(** The same machine running the detached child against a given answer. *)
Definition child (answer : fetch_result) (vars : gmap string string) : Env := {|
  argv := ["node"; "index.mjs"; "--fetch-only"];
  stdin_isTTY := false;
  stdin_data := None;
  os_platform := "linux";
  HOME := "/home/dev";
  process_cwd := "/work";
  env_vars := vars;
  execFile := fun _ _ _ => None;
  powershell_runs := false;
  cred_read := fun _ => None;
  clock := 1762000000000;
  http := answer
|}.

Definition with_token : gmap string string := {[ "CLAUDE_CODE_OAUTH_TOKEN" := "sk-token" ]}.

Definition cache_path : string := "/home/dev/.claude/statusline_cache.json".
Definition creds_path : string := "/home/dev/.claude/.credentials.json".

Definition window (utilization : string) (resets_at : string) : string :=
  "{" +:+ qt "utilization" +:+ ":" +:+ utilization +:+ ","
      +:+ qt "resets_at" +:+ ":" +:+ qt resets_at +:+ "}".

(** A cache holding both windows, as a successful fetch leaves it. *)
Definition cache_text : string :=
  "{" +:+ qt "cached_at" +:+ ":" +:+ qt "2025-11-01T12:00:00.000Z" +:+ ","
      +:+ qt "five_hour" +:+ ":" +:+ window "18" "2025-11-01T15:00:40Z" +:+ ","
      +:+ qt "seven_day" +:+ ":" +:+ window "32" "2025-11-05T08:26:40Z" +:+ "}".

Definition cached : gmap string file := {[ cache_path := Readable cache_text ]}.

Definition session_text : string :=
  "{" +:+ qt "model" +:+ ":{" +:+ qt "display_name" +:+ ":" +:+ qt "Claude Sonnet 4.5" +:+ "},"
      +:+ qt "context_window" +:+ ":{" +:+ qt "context_window_size" +:+ ":200000,"
      +:+ qt "used_percentage" +:+ ":12}}".

Definition credentials_text (token : string) : string :=
  "{" +:+ qt "claudeAiOauth" +:+ ":{" +:+ qt "accessToken" +:+ ":" +:+ qt token +:+ "}}".


Definition two_sources : gmap string file :=
  {[ creds_path := Readable (credentials_text "file-token") ]}.

Definition corrupt : gmap string file := {[ cache_path := Readable "{oops" ]}.


Definition fresh_answer : string :=
  "{" +:+ qt "five_hour" +:+ ":" +:+ window "20" "2025-11-01T15:00:40Z" +:+ "}".

Definition fresh_text : string :=
  "{" +:+ qt "cached_at" +:+ ":" +:+ qt "2025-11-01T12:26:40.000Z" +:+ ","
      +:+ qt "five_hour" +:+ ":" +:+ window "20" "2025-11-01T15:00:40Z" +:+ "}".

Definition saving : Env := child (Response 200 fresh_answer) with_token.

End Sample.

(** What [exec] returns for a command run in directory [d]. *)
Definition exec_text (E : Env) (cmd : string) (args : list string) (d : string) : string :=
  match execFile E cmd args (Some d) with
  | Some out => Str.trim out
  | None => EmptyString
  end.

Definition git_branch : list string := ["branch"; "--show-current"].
Definition git_status : list string := ["status"; "--porcelain"].
Definition git_remote : list string := ["remote"; "get-url"; "origin"].


(** Events that change nothing outside the process. *)
Definition read_only (e : event) : Prop :=
  match e with
  | EvWrite _ _ | EvRequest _ => False
  | _ => True
  end.

(** Events of the fetch-only child. *)
Definition child_event `{RT : Runtime} (E : Env) (e : event) : Prop :=
  match e with
  | EvExec _ _ | EvExists _ | EvRead _ | EvRequest _ => True
  | EvWrite p _ => p = CACHE_FILE E
  | _ => False
  end.

Definition settings_path `{RT : Runtime} (E : Env) : string :=
  path_join [HOME E; ".claude"; "settings.json"].

Definition settings_events `{RT : Runtime} (E : Env) (files : gmap string file)
  : list event :=
  EvExists (settings_path E)
  :: match files !! settings_path E with
     | Some _ => [EvRead (settings_path E)]
     | None => []
     end.

Definition statusline_command : string := "npx cc-alchemy-statusline".

Definition statusline_entry : value :=
  VObj [("type", VStr "command"); ("command", VStr statusline_command)].

Definition configured (settings : value) : bool :=
  value_is_string (opt_get (opt_get settings "statusLine") "command") statusline_command.


(** Sample inputs. *)
Definition usage_44 : value :=
  VObj [("five_hour", VObj [("utilization", VNum (B64.of_Z 0));
                            ("resets_at", VStr "2025-11-01T15:00:40Z")]);
        ("seven_day", VObj [("resets_at", VStr "2025-11-01T15:00:40Z")])].

(** The same machine with the script started from a terminal. *)
Definition terminal : Env := {|
  argv := ["node"; "index.mjs"];
  stdin_isTTY := true;
  stdin_data := None;
  os_platform := "linux";
  HOME := "/home/dev";
  process_cwd := "/work";
  env_vars := ∅;
  execFile := fun _ _ _ => None;
  powershell_runs := false;
  cred_read := fun _ => None;
  clock := 1762000000000;
  http := NetError
|}.

Definition settings_file : string := "/home/dev/.claude/settings.json".

Definition with_settings : gmap string file :=
  {[ settings_file := Readable ("{" +:+ Sample.qt "theme" +:+ ":" +:+ Sample.qt "dark" +:+ "}") ]}.

Definition already_line : string := Str.CHECK +:+ " Already configured as Claude Code statusline.".
Definition configured_lines : list string :=
  [Str.CHECK +:+ " Claude Code statusline configured!"; "  Restart Claude Code to apply."].

(** The children a run has started. *)
Definition is_spawn (e : event) : bool :=
  match e with EvSpawn _ _ => true | _ => false end.

Definition spawns_of (t : list event) : list event := List.filter is_spawn t.

(** * Part II: lemmas and theorems *)

Import B64.
Import Sample.

Lemma digits2_bounds (p : positive) :
  2 ^ (Z.pos (digits2_pos p) - 1) <= Z.pos p < 2 ^ Z.pos (digits2_pos p).
Proof.
  induction p as [p IH|p IH|]; simpl digits2_pos.
  - rewrite Pos2Z.inj_succ.
    replace (Z.succ (Z.pos (digits2_pos p)) - 1) with (Z.succ (Z.pos (digits2_pos p) - 1)) by lia.
    rewrite !Z.pow_succ_r by lia. lia.
  - rewrite Pos2Z.inj_succ.
    replace (Z.succ (Z.pos (digits2_pos p)) - 1) with (Z.succ (Z.pos (digits2_pos p) - 1)) by lia.
    rewrite !Z.pow_succ_r by lia. lia.
  - simpl. lia.
Qed.

Lemma digits2_unique (p : positive) (d : Z) :
  2 ^ (d - 1) <= Z.pos p < 2 ^ d -> Z.pos (digits2_pos p) = d.
Proof.
  intros [Hlo Hhi]. pose proof (digits2_bounds p) as [Blo Bhi].
  set (k := Z.pos (digits2_pos p)) in *.
  assert (0 < d). { destruct (Z_lt_le_dec 0 d); auto. rewrite Z.pow_neg_r in Hlo by lia.
    assert (d = 0 \/ d < 0) as [->| ?] by lia. simpl in Hhi; lia. rewrite Z.pow_neg_r in Hhi by lia. lia. }
  destruct (Z.lt_trichotomy k d) as [Hlt|[Heq|Hgt]]; auto.
  - assert (2 ^ k <= 2 ^ (d - 1)) by (apply Z.pow_le_mono_r; lia). lia.
  - assert (2 ^ d <= 2 ^ (k - 1)) by (apply Z.pow_le_mono_r; lia). lia.
Qed.

Lemma iter_xO_mul (d m : positive) :
  Z.pos (Pos.iter xO m d) = Z.pos m * 2 ^ Z.pos d.
Proof.
  revert m. induction d using Pos.peano_ind; intros m.
  - simpl. lia.
  - rewrite Pos.iter_succ. rewrite Pos2Z.inj_succ, Z.pow_succ_r by lia.
    rewrite Pos2Z.inj_xO, IHd. lia.
Qed.

Lemma shr_1_double (n : positive) :
  shr_1 {| shr_m := Z.pos n~0; shr_r := false; shr_s := false |}
  = {| shr_m := Z.pos n; shr_r := false; shr_s := false |}.
Proof. reflexivity. Qed.

Lemma pos_pow2_add (p q : positive) : (2 ^ (p + q) = 2 ^ p * 2 ^ q)%positive.
Proof.
  apply Pos2Z.inj. rewrite Pos2Z.inj_mul, !Pos2Z.inj_pow, Pos2Z.inj_add.
  apply Z.pow_add_r; lia.
Qed.

Lemma iter_shr_exact (p m : positive) :
  SpecFloat.iter_pos shr_1 p {| shr_m := Z.pos (m * 2 ^ p); shr_r := false; shr_s := false |}
  = {| shr_m := Z.pos m; shr_r := false; shr_s := false |}.
Proof.
  revert m. induction p as [p IH|p IH|]; intros m; cbn [SpecFloat.iter_pos].
  - replace (m * 2 ^ p~1)%positive with ((m * 2 ^ p * 2 ^ p)~0)%positive.
    + rewrite shr_1_double, IH, IH. reflexivity.
    + replace (p~1)%positive with (Pos.succ (p + p)) by lia.
      rewrite Pos.pow_succ_r, pos_pow2_add. lia.
  - replace (m * 2 ^ p~0)%positive with (m * 2 ^ p * 2 ^ p)%positive.
    + rewrite IH, IH. reflexivity.
    + replace (p~0)%positive with (p + p)%positive by lia.
      rewrite pos_pow2_add. lia.
  - replace (m * 2 ^ 1)%positive with (m~0)%positive by lia.
    apply shr_1_double.
Qed.

Lemma fexp_normal (e : Z) : -1021 <= e -> fexp prec emax e = e - 53.
Proof. intros H. unfold fexp, emin, prec, emax. lia. Qed.

Lemma binary_round_aux_exact (s : bool) (m : positive) (e : Z) :
  Z.pos (digits2_pos m) = 53 -> -1074 <= e <= 971 ->
  binary_round_aux prec emax s (Z.pos m) e loc_Exact = S754_finite s m e.
Proof.
  intros Hd He. unfold binary_round_aux, shr_fexp. 
  cbn [Zdigits2 shr_record_of_loc]. rewrite Hd.
  rewrite fexp_normal by lia.
  replace (53 + e - 53 - e) with 0 by lia. 
  cbn [shr shr_m loc_of_shr_record round_nearest_even Zdigits2 shr_record_of_loc].
  rewrite Hd, fexp_normal by lia.
  replace (53 + e - 53 - e) with 0 by lia. cbn [shr shr_m].
  unfold emax, prec. destruct (Z.leb_spec e (1024 - 53)); [reflexivity|lia].
Qed.

Lemma canon_digits (z : positive) :
  Z.pos z < 2 ^ 53 ->
  let d := Z.pos (digits2_pos z) in
  1 <= d <= 53 /\ 2 ^ 52 <= Z.pos z * 2 ^ (53 - d) < 2 ^ 53.
Proof.
  intros Hz d. pose proof (digits2_bounds z) as [Blo Bhi]. fold d in Blo, Bhi.
  assert (1 <= d) by (unfold d; lia).
  assert (d <= 53).
  { destruct (Z_le_gt_dec d 53); auto.
    assert (2 ^ 53 <= 2 ^ (d - 1)) by (apply Z.pow_le_mono_r; lia). lia. }
  split; [lia|].
  replace (2 ^ 52) with (2 ^ (d - 1) * 2 ^ (53 - d)).
  2:{ rewrite <- Z.pow_add_r by lia. f_equal. lia. }
  replace (2 ^ 53) with (2 ^ d * 2 ^ (53 - d)).
  2:{ rewrite <- Z.pow_add_r by lia. f_equal. lia. }
  assert (0 < 2 ^ (53 - d)) by (apply Z.pow_pos_nonneg; lia).
  nia.
Qed.

Lemma binary_round_scaled (s : bool) (z M : positive) (k : Z) :
  0 <= k <= 1000 -> Z.pos z < 2 ^ 53 -> Z.pos M = Z.pos z * 2 ^ k ->
  binary_round prec emax s M (- k) = canon s z.
Proof.
  intros Hk Hz HM.
  pose proof (canon_digits z Hz) as [Hd Hc]. cbv zeta in Hd, Hc.
  pose proof (digits2_bounds z) as [Blo Bhi].
  set (d := Z.pos (digits2_pos z)) in *.
  assert (HdM : Z.pos (digits2_pos M) = d + k).
  { apply digits2_unique. rewrite HM.
    replace (d + k - 1) with ((d - 1) + k) by lia.
    rewrite !Z.pow_add_r by lia.
    assert (0 < 2 ^ k) by (apply Z.pow_pos_nonneg; lia). nia. }
  assert (Hcan : Z.pos (Z.to_pos (Z.pos z * 2 ^ (53 - d))) = Z.pos z * 2 ^ (53 - d)).
  { apply Z2Pos.id. lia. }
  unfold canon. fold d.
  unfold binary_round, shl_align. rewrite HdM, fexp_normal by lia.
  destruct (d + k + - k - 53 - - k) as [|q|q] eqn:En.
  - (* already 53 digits *)
    assert (M = Z.to_pos (Z.pos z * 2 ^ (53 - d))) as <-.
    { apply Pos2Z.inj. rewrite Hcan, HM. f_equal. f_equal. lia. }
    rewrite binary_round_aux_exact by lia. f_equal. lia.
  - (* shift right by q bits, all of them zero *)
    assert (HMq : M = (Z.to_pos (Z.pos z * 2 ^ (53 - d)) * 2 ^ q)%positive).
    { apply Pos2Z.inj. rewrite Pos2Z.inj_mul, Pos2Z.inj_pow, Hcan, HM.
      rewrite <- Z.mul_assoc, <- Z.pow_add_r by lia. f_equal. f_equal. lia. }
    set (m' := Z.to_pos (Z.pos z * 2 ^ (53 - d))) in *.
    assert (Hm' : Z.pos (digits2_pos m') = 53).
    { apply digits2_unique. rewrite Hcan. simpl Z.sub. lia. }
    unfold binary_round_aux, shr_fexp. cbn [Zdigits2 shr_record_of_loc].
    rewrite HdM, fexp_normal by lia. rewrite En. cbn [shr].
    rewrite HMq, iter_shr_exact.
    cbn [shr_m loc_of_shr_record round_nearest_even Zdigits2 shr_record_of_loc].
    rewrite Hm', fexp_normal by lia.
    replace (53 + (- k + Z.pos q) - 53 - (- k + Z.pos q)) with 0 by lia.
    cbn [shr shr_m]. unfold emax, prec.
    destruct (Z.leb_spec (- k + Z.pos q) (1024 - 53)); [|lia].
    f_equal. lia.
  - (* shift left to fill 53 digits *)
    assert (Hit : Pos.iter xO M q = Z.to_pos (Z.pos z * 2 ^ (53 - d))).
    { apply Pos2Z.inj. rewrite Hcan, iter_xO_mul, HM.
      rewrite <- Z.mul_assoc, <- Z.pow_add_r by lia. f_equal. f_equal. lia. }
    rewrite Hit.
    rewrite binary_round_aux_exact.
    + f_equal. lia.
    + apply digits2_unique. rewrite Hcan. simpl Z.sub. lia.
    + lia.
Qed.

Lemma of_Z_pos (z : positive) : Z.pos z < 2 ^ 53 -> of_Z (Z.pos z) = canon false z.
Proof.
  intros Hz. unfold of_Z, binary_normalize.
  apply (binary_round_scaled false z z 0); [lia|assumption|]. simpl; lia.
Qed.

Lemma of_Z_neg (z : positive) : Z.pos z < 2 ^ 53 -> of_Z (Z.neg z) = canon true z.
Proof.
  intros Hz. unfold of_Z, binary_normalize.
  apply (binary_round_scaled true z z 0); [lia|assumption|]. simpl; lia.
Qed.

Lemma new_location_spec (n r : Z) : 0 <= r < n -> loc_spec (new_location n r) r n.
Proof.
  intros Hr. unfold new_location, new_location_even, new_location_odd.
  destruct (Z.even n) eqn:Ev; destruct (Z.eqb_spec r 0) as [->|Hne]; simpl; try reflexivity.
  - destruct (Z.compare_spec (2 * r) n); simpl; lia.
  - assert (Hodd : Z.odd n = true) by (rewrite <- Z.negb_even, Ev; reflexivity).
    apply Z.odd_spec in Hodd. destruct Hodd as [h Hh].
    destruct (Z.compare_spec (2 * r + 1) n); simpl; lia.
Qed.

Lemma loc_roundtrip m l : loc_of_shr_record (shr_record_of_loc m l) = l.
Proof. destruct l as [|[]]; reflexivity. Qed.

Lemma shr_m_of_loc m l : shr_m (shr_record_of_loc m l) = m.
Proof. destruct l as [|[]]; reflexivity. Qed.

(* Second normalisation pass of binary_round_aux: a 53-digit mantissa is
   kept, 2^53 is renormalised to 2^52 with the exponent bumped. *)
Lemma second_pass (s : bool) (m1 : Z) (e : Z) :
  2 ^ 52 <= m1 <= 2 ^ 53 -> -1074 <= e <= 900 ->
  exists (m' : positive) (j : Z),
    (let '(mrs, e'') := shr_fexp prec emax m1 e loc_Exact in
     match shr_m mrs with
     | Z0 => S754_zero s
     | Zpos m => if Z.leb e'' (emax - prec) then S754_finite s m e'' else S754_infinity s
     | _ => S754_nan
     end) = S754_finite s m' (e + j)
    /\ 0 <= j <= 1 /\ Z.pos m' * 2 ^ j = m1 /\ 2 ^ 52 <= Z.pos m' < 2 ^ 53.
Proof.
  intros Hm He.
  destruct m1 as [|m|m]; try (exfalso; lia).
  destruct (Z.eq_dec (Z.pos m) (2 ^ 53)) as [Heq|Hne].
  - exists (Z.to_pos (2 ^ 52)), 1.
    assert (m = Z.to_pos (2 ^ 53)) as -> by (apply Pos2Z.inj; rewrite Heq; reflexivity).
    unfold shr_fexp. cbn [Zdigits2 shr_record_of_loc].
    replace (Z.pos (digits2_pos (Z.to_pos (2 ^ 53)))) with 54 by reflexivity.
    rewrite fexp_normal by lia.
    replace (54 + e - 53 - e) with 1 by lia. cbn [shr SpecFloat.iter_pos].
    change (shr_1 _) with {| shr_m := 2 ^ 52; shr_r := false; shr_s := false |}.
    cbn [shr_m]. change (2 ^ 52) with (Z.pos (Z.to_pos (2 ^ 52))) at 1.
    cbv iota beta. unfold emax, prec.
    destruct (Z.leb_spec (e + 1) (1024 - 53)); [|lia].
    split; [reflexivity|]. split; [lia|]. split; [reflexivity|]. simpl; lia.
  - exists m, 0.
    assert (Hd : Z.pos (digits2_pos m) = 53) by (apply digits2_unique; simpl Z.sub; lia).
    unfold shr_fexp. cbn [Zdigits2 shr_record_of_loc]. rewrite Hd, fexp_normal by lia.
    replace (53 + e - 53 - e) with 0 by lia. cbn [shr shr_m].
    unfold emax, prec. destruct (Z.leb_spec e (1024 - 53)); [|lia].
    split; [f_equal; lia|]. split; [lia|]. split; [lia|]. lia.
Qed.

Lemma round_aux_spec (s : bool) (q : positive) (e : Z) (l : location) (r n : Z) :
  2 ^ 52 <= Z.pos q < 2 ^ 54 -> -1074 <= e <= 800 ->
  0 <= r < n -> loc_spec l r n ->
  exists (m' : positive) (j : Z),
    binary_round_aux prec emax s (Z.pos q) e l = S754_finite s m' (e + j)
    /\ 0 <= j <= 2 /\ 2 ^ 52 <= Z.pos m' < 2 ^ 53
    /\ 2 * Z.abs (Z.pos m' * 2 ^ j * n - (Z.pos q * n + r)) <= 2 ^ j * n.
Proof.
  intros Hq He Hr Hl.
  unfold binary_round_aux.
  destruct (Z_lt_le_dec (Z.pos q) (2 ^ 53)) as [Hlt|Hge].
  - (* the quotient has 53 digits: no first shift *)
    assert (Hd : Z.pos (digits2_pos q) = 53) by (apply digits2_unique; simpl Z.sub; lia).
    unfold shr_fexp at 1. cbn [Zdigits2]. rewrite Hd, fexp_normal by lia.
    replace (53 + e - 53 - e) with 0 by lia. cbn [shr].
    rewrite loc_roundtrip, shr_m_of_loc.
    set (m1 := round_nearest_even (Z.pos q) l).
    assert (Hm1 : 2 ^ 52 <= m1 <= 2 ^ 53 /\ 2 * Z.abs (m1 * n - (Z.pos q * n + r)) <= n).
    { unfold m1. destruct l as [|[]]; cbn [loc_spec round_nearest_even] in Hl |- *.
      - subst r. split; [lia|]. lia.
      - destruct (Z.even (Z.pos q)); split; lia.
      - split; lia.
      - split; lia. }
    destruct Hm1 as [Hb Herr].
    destruct (second_pass s m1 e Hb ltac:(lia)) as (m' & j & Heq & Hj & Hmj & Hm').
    exists m', j. split; [exact Heq|]. split; [lia|]. split; [lia|].
    rewrite Hmj. assert (0 < 2 ^ j) by (apply Z.pow_pos_nonneg; lia). nia.
  - (* the quotient has 54 digits: one bit is shifted out *)
    assert (Hd : Z.pos (digits2_pos q) = 54) by (apply digits2_unique; simpl Z.sub; lia).
    unfold shr_fexp at 1. cbn [Zdigits2]. rewrite Hd, fexp_normal by lia.
    replace (54 + e - 53 - e) with 1 by lia. cbn [shr SpecFloat.iter_pos].
    set (rec1 := shr_1 (shr_record_of_loc (Z.pos q) l)).
    set (m1 := round_nearest_even (shr_m rec1) (loc_of_shr_record rec1)).
    assert (Hm1 : 2 ^ 52 <= m1 <= 2 ^ 53 /\ Z.abs (2 * m1 * n - (Z.pos q * n + r)) <= n).
    { unfold m1, rec1.
      destruct q as [p|p|]; [| |exfalso; simpl in Hge; lia];
      destruct l as [|[]]; cbn [loc_spec] in Hl;
      cbn [shr_record_of_loc shr_1 orb shr_m loc_of_shr_record round_nearest_even].
      all: try (destruct (Z.even (Z.pos p))).
      all: split; lia. }
    destruct Hm1 as [Hb Herr].
    destruct (second_pass s m1 (e + 1) Hb ltac:(lia)) as (m' & j & Heq & Hj & Hmj & Hm').
    exists m', (1 + j). replace (e + (1 + j)) with (e + 1 + j) by lia.
    split; [exact Heq|]. split; [lia|]. split; [lia|].
    rewrite Z.pow_add_r by lia. change (2 ^ 1) with 2.
    assert (0 < 2 ^ j) by (apply Z.pow_pos_nonneg; lia).
    rewrite <- Hmj in Herr. nia.
Qed.

Lemma div_canon (sa sb : bool) (za zb : positive) :
  Z.pos za < 2 ^ 52 -> Z.pos zb < 2 ^ 53 ->
  exists (m : positive) (k : Z),
    div (canon sa za) (canon sb zb) = S754_finite (xorb sa sb) m (- k)
    /\ 0 <= k <= 106 /\ 2 ^ 52 <= Z.pos m < 2 ^ 53
    /\ 2 * Z.abs (Z.pos m * Z.pos zb - Z.pos za * 2 ^ k) <= Z.pos zb.
Proof.
  intros Ha Hb.
  pose proof (canon_digits za ltac:(lia)) as [Hda Hca].
  pose proof (canon_digits zb Hb) as [Hdb Hcb]. cbv zeta in *.
  pose proof (digits2_bounds za) as [Alo Ahi].
  set (da := Z.pos (digits2_pos za)) in *.
  set (db := Z.pos (digits2_pos zb)) in *.
  assert (Hda52 : da <= 52).
  { destruct (Z_le_gt_dec da 52); auto.
    assert (2 ^ 52 <= 2 ^ (da - 1)) by (apply Z.pow_le_mono_r; lia). lia. }
  unfold div, SFdiv, canon. fold da db.
  set (ma := Z.to_pos (Z.pos za * 2 ^ (53 - da))).
  set (mb := Z.to_pos (Z.pos zb * 2 ^ (53 - db))).
  assert (Hma : Z.pos ma = Z.pos za * 2 ^ (53 - da)) by (apply Z2Pos.id; lia).
  assert (Hmb : Z.pos mb = Z.pos zb * 2 ^ (53 - db)) by (apply Z2Pos.id; lia).
  assert (Dma : Z.pos (digits2_pos ma) = 53) by (apply digits2_unique; simpl Z.sub; lia).
  assert (Dmb : Z.pos (digits2_pos mb) = 53) by (apply digits2_unique; simpl Z.sub; lia).
  unfold SFdiv_core_binary. cbn [Zdigits2]. rewrite Dma, Dmb.
  rewrite fexp_normal by lia.
  rewrite Z.min_l by lia.
  replace (da - 53 - (db - 53) - (53 + (da - 53) - (53 + (db - 53)) - 53)) with 53 by lia.
  cbv iota. rewrite Z.shiftl_mul_pow2 by lia.
  pose proof (Z_div_mod (Z.pos ma * 2 ^ 53) (Z.pos mb) ltac:(lia)) as Hdm.
  destruct (Z.div_eucl (Z.pos ma * 2 ^ 53) (Z.pos mb)) as [q r].
  destruct Hdm as [Hqr Hr].
  assert (Hq : 2 ^ 52 <= q < 2 ^ 54) by nia.
  destruct q as [|q|q]; try (exfalso; lia).
  destruct (round_aux_spec (xorb sa sb) q (53 + (da - 53) - (53 + (db - 53)) - 53)
              (new_location (Z.pos mb) r) r (Z.pos mb) Hq ltac:(lia) Hr
              (new_location_spec _ _ Hr)) as (m' & j & Heq & Hj & Hm' & Herr).
  exists m', (53 + db - da - j).
  split. { rewrite Heq. f_equal. lia. }
  split; [lia|]. split; [lia|].
  replace (Z.pos q * Z.pos mb + r) with (Z.pos ma * 2 ^ 53) in Herr by lia.
  rewrite Hma, Hmb in Herr.
  (* factor out the common scale 2^(j + 53 - db) *)
  set (S := 2 ^ (j + 53 - db)).
  assert (HS : 0 < S) by (apply Z.pow_pos_nonneg; lia).
  assert (E1 : Z.pos m' * 2 ^ j * (Z.pos zb * 2 ^ (53 - db)) = Z.pos m' * Z.pos zb * S).
  { unfold S. replace (j + 53 - db) with (j + (53 - db)) by lia.
    rewrite Z.pow_add_r by lia. ring. }
  assert (E2 : Z.pos za * 2 ^ (53 - da) * 2 ^ 53 = Z.pos za * 2 ^ (53 + db - da - j) * S).
  { unfold S. rewrite <- !Z.mul_assoc, <- !Z.pow_add_r by lia. f_equal. f_equal. lia. }
  assert (E3 : 2 ^ j * (Z.pos zb * 2 ^ (53 - db)) = Z.pos zb * S).
  { unfold S. replace (j + 53 - db) with (j + (53 - db)) by lia.
    rewrite Z.pow_add_r by lia. ring. }
  rewrite E1, E2, E3 in Herr.
  rewrite <- Z.mul_sub_distr_r, Z.abs_mul, (Z.abs_eq S) in Herr by lia.
  nia.
Qed.

Lemma of_Z_0 : of_Z 0 = S754_zero false.
Proof. reflexivity. Qed.

Lemma canon_compare (za zb : positive) :
  Z.pos za < 2 ^ 53 -> Z.pos zb < 2 ^ 53 ->
  match Z.pos (digits2_pos za) - 53 ?= Z.pos (digits2_pos zb) - 53 with
  | Lt => Lt
  | Gt => Gt
  | Eq => Pos.compare_cont Eq
            (Z.to_pos (Z.pos za * 2 ^ (53 - Z.pos (digits2_pos za))))
            (Z.to_pos (Z.pos zb * 2 ^ (53 - Z.pos (digits2_pos zb))))
  end = (za ?= zb)%positive.
Proof.
  intros Ha Hb.
  pose proof (canon_digits za Ha) as [Hda Hca].
  pose proof (canon_digits zb Hb) as [Hdb Hcb]. cbv zeta in *.
  pose proof (digits2_bounds za) as [Alo Ahi].
  pose proof (digits2_bounds zb) as [Blo Bhi].
  set (da := Z.pos (digits2_pos za)) in *.
  set (db := Z.pos (digits2_pos zb)) in *.
  destruct (Z.compare_spec (da - 53) (db - 53)) as [Heq|Hlt|Hgt].
  - assert (da = db) as Hd by lia. rewrite Hd in *.
    change (Pos.compare_cont Eq) with Pos.compare.
    rewrite (Pos2Z.inj_compare za zb), Pos2Z.inj_compare, !Z2Pos.id by lia.
    assert (0 < 2 ^ (53 - db)) by (apply Z.pow_pos_nonneg; lia).
    destruct (Z.compare_spec (Z.pos za * 2 ^ (53 - db)) (Z.pos zb * 2 ^ (53 - db)));
      destruct (Z.compare_spec (Z.pos za) (Z.pos zb)); try reflexivity; exfalso; nia.
  - symmetry. apply Pos.compare_lt_iff.
    assert (2 ^ da <= 2 ^ (db - 1)) by (apply Z.pow_le_mono_r; lia). lia.
  - symmetry. apply Pos.compare_gt_iff.
    assert (2 ^ db <= 2 ^ (da - 1)) by (apply Z.pow_le_mono_r; lia). lia.
Qed.

Lemma compare_of_Z (a b : Z) :
  Z.abs a < 2 ^ 53 -> Z.abs b < 2 ^ 53 ->
  SFcompare (of_Z a) (of_Z b) = Some (a ?= b).
Proof.
  intros Ha Hb.
  destruct a as [|a|a], b as [|b|b];
    rewrite ?of_Z_0, ?of_Z_pos, ?of_Z_neg by lia; try reflexivity.
  - unfold canon. cbn [SFcompare]. f_equal. apply canon_compare; lia.
  - unfold canon. cbn [SFcompare]. f_equal.
    pose proof (canon_compare a b ltac:(lia) ltac:(lia)) as H.
    change (Z.neg a ?= Z.neg b) with (CompOpp (a ?= b)%positive). rewrite <- H.
    destruct (Z.pos (digits2_pos a) - 53 ?= Z.pos (digits2_pos b) - 53); reflexivity.
Qed.

Lemma ltb_of_Z (a b : Z) :
  Z.abs a < 2 ^ 53 -> Z.abs b < 2 ^ 53 -> ltb (of_Z a) (of_Z b) = (a <? b).
Proof.
  intros Ha Hb. unfold ltb, SFltb. rewrite compare_of_Z by assumption.
  unfold Z.ltb. destruct (a ?= b); reflexivity.
Qed.

Lemma geb_of_Z (a b : Z) :
  Z.abs a < 2 ^ 53 -> Z.abs b < 2 ^ 53 -> geb (of_Z a) (of_Z b) = (b <=? a).
Proof.
  intros Ha Hb. unfold geb, SFleb. rewrite compare_of_Z by assumption.
  unfold Z.leb. destruct (b ?= a); reflexivity.
Qed.

Lemma gtb_of_Z (a b : Z) :
  Z.abs a < 2 ^ 53 -> Z.abs b < 2 ^ 53 -> gtb (of_Z a) (of_Z b) = (b <? a).
Proof. intros Ha Hb. unfold gtb. apply ltb_of_Z; assumption. Qed.

Lemma max_of_Z (a b : Z) :
  Z.abs a < 2 ^ 53 -> Z.abs b < 2 ^ 53 -> max (of_Z a) (of_Z b) = of_Z (Z.max a b).
Proof.
  intros Ha Hb. unfold max. rewrite compare_of_Z by assumption.
  unfold Z.max. destruct (Z.compare_spec a b) as [->|Hlt|Hgt]; try reflexivity.
  destruct b as [|b|b]; rewrite ?of_Z_0, ?of_Z_pos, ?of_Z_neg by lia; reflexivity.
Qed.

Lemma to_int_canon (s : bool) (z : positive) :
  Z.pos z < 2 ^ 53 -> to_int (canon s z) = Some (cond_Zopp s (Z.pos z)).
Proof.
  intros Hz. pose proof (canon_digits z Hz) as [Hd Hc]. cbv zeta in *.
  unfold canon, to_int. set (d := Z.pos (digits2_pos z)) in *.
  destruct (Z.ltb_spec 0 (d - 53)); [lia|].
  rewrite Z2Pos.id by lia. replace (- (d - 53)) with (53 - d) by lia.
  assert (0 < 2 ^ (53 - d)) by (apply Z.pow_pos_nonneg; lia).
  rewrite Z.mod_mul by lia. rewrite Z.div_mul by lia. reflexivity.
Qed.

Lemma to_int_of_Z (z : Z) : Z.abs z < 2 ^ 53 -> to_int (of_Z z) = Some z.
Proof.
  intros Hz. destruct z as [|p|p]; [reflexivity| |].
  - rewrite of_Z_pos, to_int_canon by lia. reflexivity.
  - rewrite of_Z_neg, to_int_canon by lia. reflexivity.
Qed.

Lemma sub_of_Z (a b : Z) :
  Z.abs a < 2 ^ 53 -> Z.abs b < 2 ^ 53 -> Z.abs (a - b) < 2 ^ 53 ->
  sub (of_Z a) (of_Z b) = of_Z (a - b).
Proof.
  intros Ha Hb Hab.
  assert (Hcanon : forall s z, Z.pos z < 2 ^ 53 -> of_Z (cond_Zopp s (Z.pos z)) = canon s z).
  { intros [] z Hz; [apply of_Z_neg|apply of_Z_pos]; assumption. }
  assert (Hfin : forall sa za sb zb, Z.pos za < 2 ^ 53 -> Z.pos zb < 2 ^ 53 ->
            Z.abs (cond_Zopp sa (Z.pos za) - cond_Zopp sb (Z.pos zb)) < 2 ^ 53 ->
            sub (canon sa za) (canon sb zb) = of_Z (cond_Zopp sa (Z.pos za) - cond_Zopp sb (Z.pos zb))).
  { clear. intros sa za sb zb Ha Hb Hab.
    pose proof (canon_digits za Ha) as [Hda Hca].
    pose proof (canon_digits zb Hb) as [Hdb Hcb]. cbv zeta in *.
    unfold sub, SFsub, canon.
    set (da := Z.pos (digits2_pos za)) in *.
    set (db := Z.pos (digits2_pos zb)) in *.
    set (k := - Z.min (da - 53) (db - 53)).
    assert (Hk : 0 <= k <= 52) by (unfold k; lia).
    replace (Z.min (da - 53) (db - 53)) with (- k) by (unfold k; lia).
    assert (Hal : forall z d, 1 <= d <= 53 -> - k <= d - 53 ->
               2 ^ 52 <= Z.pos z * 2 ^ (53 - d) ->
               Z.pos (fst (shl_align (Z.to_pos (Z.pos z * 2 ^ (53 - d))) (d - 53) (- k)))
               = Z.pos z * 2 ^ k).
    { clear. intros z d Hd Hkd Hc. unfold shl_align.
      assert (0 < 2 ^ (53 - d)) by (apply Z.pow_pos_nonneg; lia).
      destruct (- k - (d - 53)) as [|q|q] eqn:E; cbn [fst].
      - rewrite Z2Pos.id by lia. f_equal. f_equal. lia.
      - lia.
      - rewrite iter_xO_mul, Z2Pos.id by lia.
        rewrite <- Z.mul_assoc, <- Z.pow_add_r by lia. f_equal. f_equal. lia. }
    rewrite !Hal by (unfold k; lia).
    replace (cond_Zopp sa (Z.pos za * 2 ^ k) - cond_Zopp sb (Z.pos zb * 2 ^ k))
      with ((cond_Zopp sa (Z.pos za) - cond_Zopp sb (Z.pos zb)) * 2 ^ k)
      by (destruct sa, sb; simpl; ring).
    set (c := cond_Zopp sa (Z.pos za) - cond_Zopp sb (Z.pos zb)) in *.
    assert (0 < 2 ^ k) by (apply Z.pow_pos_nonneg; lia).
    destruct c as [|c|c].
    - reflexivity.
    - unfold binary_normalize. destruct (Z.pos c * 2 ^ k) as [|M|M] eqn:EM; try lia.
      rewrite (binary_round_scaled false c M k) by lia.
      symmetry. apply of_Z_pos. lia.
    - unfold binary_normalize. destruct (Z.neg c * 2 ^ k) as [|M|M] eqn:EM; try lia.
      rewrite (binary_round_scaled true c M k) by lia.
      symmetry. apply of_Z_neg. lia. }
  destruct a as [|a|a], b as [|b|b]; try reflexivity.
  all: rewrite ?of_Z_0.
  all: try (rewrite (of_Z_pos a) by lia); try (rewrite (of_Z_neg a) by lia).
  all: try (rewrite (of_Z_pos b) by lia); try (rewrite (of_Z_neg b) by lia).
  - (* 0 - pos *) change (0 - Z.pos b) with (Z.neg b). rewrite of_Z_neg by lia. reflexivity.
  - (* 0 - neg *) change (0 - Z.neg b) with (Z.pos b). rewrite of_Z_pos by lia. reflexivity.
  - (* pos - 0 *) change (Z.pos a - 0) with (Z.pos a). rewrite of_Z_pos by lia. reflexivity.
  - apply (Hfin false a false b); simpl; lia.
  - apply (Hfin false a true b); simpl; lia.
  - change (Z.neg a - 0) with (Z.neg a). rewrite of_Z_neg by lia. reflexivity.
  - apply (Hfin true a false b); simpl; lia.
  - apply (Hfin true a true b); simpl; lia.
Qed.

Lemma quot_bound (m a b E : Z) :
  2 ^ 52 <= m -> 0 < a < 2 ^ 52 -> 0 < b -> 0 < E ->
  2 * Z.abs (m * b - a * E) <= b ->
  b < E /\ m / E = a / b /\ (m mod E = 0 <-> a mod b = 0).
Proof.
  intros Hm Ha Hb HE Herr.
  assert (HbE : b < E).
  { destruct (Z_lt_le_dec b E) as [|Hle]; auto. exfalso.
    assert (a * E <= (2 ^ 52 - 1) * b) by nia.
    assert (2 ^ 52 * b <= m * b) by nia. lia. }
  pose proof (Z.div_mod a b ltac:(lia)) as Hdm.
  pose proof (Z.mod_pos_bound a b Hb) as Hr.
  set (q0 := a / b) in *. set (r0 := a mod b) in *.
  assert (Hlo : q0 * E <= m).
  { destruct (Z_le_gt_dec (q0 * E) m) as [|Hgt]; auto. exfalso.
    assert (m * b <= (q0 * E - 1) * b) by nia.
    assert (a * E = q0 * E * b + r0 * E) by (rewrite Hdm; ring).
    assert (0 <= r0 * E) by nia. lia. }
  assert (Hhi : m < (q0 + 1) * E).
  { destruct (Z_lt_le_dec m ((q0 + 1) * E)) as [|Hge]; auto. exfalso.
    assert ((q0 + 1) * E * b <= m * b) by nia.
    assert (a * E = q0 * E * b + r0 * E) by (rewrite Hdm; ring).
    assert (r0 * E <= (b - 1) * E) by nia.
    assert ((b - 1) * E = b * E - E) by ring. lia. }
  assert (Hq : m / E = q0).
  { symmetry. apply (Z.div_unique m E q0 (m - q0 * E)); [left; lia|ring]. }
  split; [exact HbE|]. split; [exact Hq|].
  rewrite Z.mod_eq by lia. rewrite Hq.
  assert (a * E = q0 * E * b + r0 * E) by (rewrite Hdm; ring).
  split; intros H0.
  - assert (m = q0 * E) by lia. subst m.
    destruct (Z.eq_dec r0 0); auto. exfalso.
    assert (E <= r0 * E) by nia. lia.
  - assert (m * b - a * E = (m - q0 * E) * b) by (rewrite H, H0; ring).
    rewrite H1, Z.abs_mul, (Z.abs_eq b) in Herr by lia.
    assert (Z.abs (m - q0 * E) = 0) by nia. lia.
Qed.

Lemma floor_div_of_Z (a b : Z) :
  Z.abs a < 2 ^ 52 -> 0 < b < 2 ^ 53 ->
  floor (div (of_Z a) (of_Z b)) = of_Z (a / b).
Proof.
  intros Ha Hb. destruct b as [|zb|zb]; try lia.
  rewrite (of_Z_pos zb) by lia.
  destruct a as [|za|za].
  - reflexivity.
  - rewrite of_Z_pos by lia.
    destruct (div_canon false false za zb ltac:(lia) ltac:(lia)) as (m & k & Heq & Hk & Hm & Herr).
    rewrite Heq. unfold floor. destruct (Z.ltb_spec 0 (- k)); [lia|].
    rewrite Z.opp_involutive.
    assert (0 < 2 ^ k) by (apply Z.pow_pos_nonneg; lia).
    destruct (quot_bound (Z.pos m) (Z.pos za) (Z.pos zb) (2 ^ k)) as (_ & Hq & _); try lia.
    cbn [xorb]. rewrite Hq. reflexivity.
  - rewrite of_Z_neg by lia.
    destruct (div_canon true false za zb ltac:(lia) ltac:(lia)) as (m & k & Heq & Hk & Hm & Herr).
    rewrite Heq. unfold floor. destruct (Z.ltb_spec 0 (- k)); [lia|].
    rewrite Z.opp_involutive.
    assert (0 < 2 ^ k) by (apply Z.pow_pos_nonneg; lia).
    destruct (quot_bound (Z.pos m) (Z.pos za) (Z.pos zb) (2 ^ k)) as (_ & Hq & Hmod); try lia.
    cbn [xorb]. rewrite Hq.
    pose proof (Z.div_mod (Z.pos za) (Z.pos zb) ltac:(lia)) as Hdm.
    pose proof (Z.mod_pos_bound (Z.pos za) (Z.pos zb) ltac:(lia)) as Hr.
    destruct (Z.eqb_spec (Z.pos m mod 2 ^ k) 0) as [Hz|Hz]; f_equal.
    + apply Hmod in Hz.
      apply (Z.div_unique (Z.neg za) (Z.pos zb) _ 0); [left; lia|]. lia.
    + assert (Z.pos za mod Z.pos zb <> 0) by (intros Hc; apply Hz, Hmod, Hc).
      apply (Z.div_unique (Z.neg za) (Z.pos zb) _ (Z.pos zb - Z.pos za mod Z.pos zb));
        [left; lia|]. lia.
Qed.

Lemma rem_of_Z (a b : Z) :
  0 <= a < 2 ^ 53 -> 0 < b < 2 ^ 53 -> rem (of_Z a) (of_Z b) = of_Z (a mod b).
Proof.
  intros Ha Hb. destruct b as [|zb|zb]; try lia.
  rewrite (of_Z_pos zb) by lia.
  destruct a as [|za|za]; try lia.
  - reflexivity.
  - rewrite of_Z_pos by lia.
    pose proof (canon_digits za ltac:(lia)) as [Hda Hca].
    pose proof (canon_digits zb ltac:(lia)) as [Hdb Hcb]. cbv zeta in *.
    unfold rem, canon.
    set (da := Z.pos (digits2_pos za)) in *.
    set (db := Z.pos (digits2_pos zb)) in *.
    set (k := - Z.min (da - 53) (db - 53)).
    assert (Hk : 0 <= k <= 52) by (unfold k; lia).
    replace (Z.min (da - 53) (db - 53)) with (- k) by (unfold k; lia).
    rewrite !Z2Pos.id by lia.
    rewrite <- !Z.mul_assoc, <- !Z.pow_add_r by (unfold k; lia).
    replace (53 - da + (da - 53 - - k)) with k by lia.
    replace (53 - db + (db - 53 - - k)) with k by lia.
    assert (0 < 2 ^ k) by (apply Z.pow_pos_nonneg; lia).
    rewrite Z.mul_mod_distr_r by lia. cbn [cond_Zopp].
    pose proof (Z.mod_pos_bound (Z.pos za) (Z.pos zb) ltac:(lia)) as Hr.
    destruct (Z.pos za mod Z.pos zb) as [|c|c] eqn:Ec; try lia.
    + reflexivity.
    + unfold binary_normalize. destruct (Z.pos c * 2 ^ k) as [|M|M] eqn:EM; try lia.
      rewrite (binary_round_scaled false c M k) by lia.
      symmetry. apply of_Z_pos. lia.
Qed.

Lemma tenths_div_million (a : Z) :
  0 < a < 2 ^ 52 ->
  exists (m : positive) (k n : Z),
    div (of_Z a) (of_Z 1000000) = S754_finite false m (- k) /\ 0 <= k
    /\ tenths (S754_finite false m (- k)) = Some n
    /\ 2 * Z.abs (100000 * n - a) <= 100000.
Proof.
  intros Ha. destruct a as [|za|za]; try lia.
  rewrite of_Z_pos by lia.
  change (of_Z 1000000) with (canon false 1000000%positive).
  destruct (div_canon false false za 1000000 ltac:(lia) ltac:(simpl; lia))
    as (m & k & Heq & Hk & Hm & Herr).
  exists m, k. rewrite Heq. cbn [xorb]. unfold tenths.
  assert (HE : 0 < 2 ^ k) by (apply Z.pow_pos_nonneg; lia).
  destruct (quot_bound (Z.pos m) (Z.pos za) 1000000 (2 ^ k)) as (HbE & _ & _); try lia.
  assert (1 <= k).
  { destruct (Z.eq_dec k 0) as [->|]; [simpl in HbE; lia|lia]. }
  destruct (Z.leb_spec 0 (- k)); [lia|].
  rewrite Z.opp_involutive. replace (1 - - k) with (1 + k) by lia.
  rewrite Z.pow_add_r by lia. change (2 ^ 1) with 2.
  set (E := 2 ^ k) in *.
  eexists; split; [reflexivity|]. split; [lia|]. split; [reflexivity|].
  pose proof (Z.div_mod (20 * Z.pos m + E) (2 * E) ltac:(lia)) as Hdm.
  pose proof (Z.mod_pos_bound (20 * Z.pos m + E) (2 * E) ltac:(lia)) as Hr.
  set (n := (20 * Z.pos m + E) / (2 * E)) in *.
  set (r := (20 * Z.pos m + E) mod (2 * E)) in *.
  assert (Herr' : - 500000 <= Z.pos m * 1000000 - Z.pos za * E <= 500000) by lia.
  clear Herr.
  assert (Hup : 100000 * n - Z.pos za <= 50000).
  { destruct (Z_le_gt_dec (100000 * n - Z.pos za) 50000) as [|Hgt]; auto. exfalso.
    assert (100000 * n - Z.pos za >= 50001) by lia.
    assert (20 * E * (100000 * n - Z.pos za) >= 20 * E * 50001) by nia.
    assert (2 * E * n * 1000000 <= (20 * Z.pos m + E) * 1000000) by nia.
    lia. }
  assert (Hdn : Z.pos za - 100000 * n <= 50000).
  { destruct (Z_le_gt_dec (Z.pos za - 100000 * n) 50000) as [|Hgt]; auto. exfalso.
    assert (Z.pos za - 100000 * n >= 50001) by lia.
    assert (20 * E * (Z.pos za - 100000 * n) >= 20 * E * 50001) by nia.
    assert ((2 * E * n + 2 * E) * 1000000 > (20 * Z.pos m + E) * 1000000) by nia.
    lia. }
  lia.
Qed.

Lemma floor_canon_int (z : Z) : Z.abs z < 2 ^ 53 -> floor (of_Z z) = of_Z z.
Proof.
  intros Hz. destruct z as [|p|p]; [reflexivity| |].
  - rewrite of_Z_pos by lia. pose proof (canon_digits p ltac:(lia)) as [Hd Hc]. cbv zeta in *.
    unfold canon, floor. set (d := Z.pos (digits2_pos p)) in *.
    destruct (Z.ltb_spec 0 (d - 53)); [lia|].
    rewrite Z2Pos.id by lia. replace (- (d - 53)) with (53 - d) by lia.
    assert (0 < 2 ^ (53 - d)) by (apply Z.pow_pos_nonneg; lia).
    rewrite Z.div_mul by lia. fold d. apply of_Z_pos. lia.
  - rewrite of_Z_neg by lia. pose proof (canon_digits p ltac:(lia)) as [Hd Hc]. cbv zeta in *.
    unfold canon, floor. set (d := Z.pos (digits2_pos p)) in *.
    destruct (Z.ltb_spec 0 (d - 53)); [lia|].
    rewrite Z2Pos.id by lia. replace (- (d - 53)) with (53 - d) by lia.
    assert (0 < 2 ^ (53 - d)) by (apply Z.pow_pos_nonneg; lia).
    rewrite Z.mod_mul, Z.div_mul by lia. cbn [Z.eqb]. fold d.
    change (- Z.pos p) with (Z.neg p). apply of_Z_neg. lia.
Qed.

(** * Reasoning about runs: what a computation appends to the trace *)

Section Footprint.
Context {A B : Type} (P : event -> Prop).

Lemma footprint_ret (a : A) : footprint P (ret a).
Proof.
  intros st o st' H. injection H as <- <-. exists []. rewrite app_nil_r. auto.
Qed.

Lemma footprint_throw : footprint P (@throw A).
Proof.
  intros st o st' H. injection H as <- <-. exists []. rewrite app_nil_r. auto.
Qed.

Lemma footprint_exit (c : Z) : footprint P (@process_exit A c).
Proof.
  intros st o st' H. injection H as <- <-. exists []. rewrite app_nil_r. auto.
Qed.

Lemma footprint_lift (o : outcome A) : footprint P (lift o).
Proof.
  intros st o' st' H. injection H as <- <-. exists []. rewrite app_nil_r. auto.
Qed.

Lemma footprint_bind (m : M A) (k : A -> M B) :
  footprint P m -> (forall a, footprint P (k a)) -> footprint P (bind m k).
Proof.
  intros Hm Hk st o st' H. unfold bind in H.
  destruct (m st) as [o1 st1] eqn:E1.
  destruct (Hm _ _ _ E1) as (t1 & Ht1 & HP1 & Hfs1).
  destruct o1 as [a| |c].
  - destruct (Hk a _ _ _ H) as (t2 & Ht2 & HP2 & Hfs2).
    exists (t1 ++ t2). rewrite Ht2, Ht1, app_assoc. split; [reflexivity|].
    split; [apply Forall_app; auto|].
    intros Hw. apply Forall_app in Hw as [Hw1 Hw2].
    rewrite Hfs2, Hfs1; auto.
  - injection H as <- <-. exists t1. auto.
  - injection H as <- <-. exists t1. auto.
Qed.

Lemma footprint_try (m h : M A) :
  footprint P m -> footprint P h -> footprint P (try_catch m h).
Proof.
  intros Hm Hh st o st' H. unfold try_catch in H.
  destruct (m st) as [o1 st1] eqn:E1.
  destruct (Hm _ _ _ E1) as (t1 & Ht1 & HP1 & Hfs1).
  destruct o1 as [a| |c].
  - injection H as <- <-. exists t1. auto.
  - destruct (Hh _ _ _ H) as (t2 & Ht2 & HP2 & Hfs2).
    exists (t1 ++ t2). rewrite Ht2, Ht1, app_assoc. split; [reflexivity|].
    split; [apply Forall_app; auto|].
    intros Hw. apply Forall_app in Hw as [Hw1 Hw2].
    rewrite Hfs2, Hfs1; auto.
  - injection H as <- <-. exists t1. auto.
Qed.

End Footprint.

Lemma footprint_emit (P : event -> Prop) (e : event) : P e -> footprint P (emit e).
Proof.
  intros He st o st' H. injection H as <- <-. exists [e]. simpl. auto.
Qed.

Lemma footprint_existsSync (P : event -> Prop) (p : string) :
  P (EvExists p) -> footprint P (existsSync p).
Proof.
  intros He st o st' H. injection H as <- <-. exists [EvExists p]. simpl. auto.
Qed.

Lemma footprint_readFileSync (P : event -> Prop) (p : string) :
  P (EvRead p) -> footprint P (readFileSync p).
Proof.
  intros He st o st' H. unfold readFileSync in H.
  exists [EvRead p].
  destruct (fs st !! p) as [[s|]|]; injection H as <- <-; simpl; auto.
Qed.

Lemma footprint_writeFileSync (P : event -> Prop) (p data : string) :
  P (EvWrite p data) -> footprint P (writeFileSync p data).
Proof.
  intros He st o st' H. unfold writeFileSync in H.
  destruct (fs st !! p) as [[s|]|]; injection H as <- <-; simpl.
  - exists [EvWrite p data]. split; [reflexivity|]. split; [auto|].
    intros Hw. apply Forall_cons in Hw as [Hw _]. exfalso. apply Hw. exact I.
  - exists []. rewrite app_nil_r. auto.
  - exists [EvWrite p data]. split; [reflexivity|]. split; [auto|].
    intros Hw. apply Forall_cons in Hw as [Hw _]. exfalso. apply Hw. exact I.
Qed.

Lemma footprint_weaken {A} (P Q : event -> Prop) (m : M A) :
  (forall e, P e -> Q e) -> footprint P m -> footprint Q m.
Proof.
  intros HPQ Hm st o st' H. destruct (Hm _ _ _ H) as (t & Ht & HP & Hfs).
  exists t. split; [exact Ht|]. split; [|exact Hfs].
  eapply Forall_impl; eauto.
Qed.

Create HintDb footprint.
#[export] Hint Resolve footprint_ret footprint_throw footprint_exit footprint_lift
  footprint_bind footprint_try footprint_emit footprint_existsSync
  footprint_readFileSync footprint_writeFileSync : footprint.

(** Breaks a goal [footprint P m] down along the structure of [m]. *)
Ltac footprint_step :=
  match goal with
  | |- footprint _ (bind _ _) => apply footprint_bind; [|intros ?]
  | |- footprint _ (try_catch _ _) => apply footprint_try
  | |- footprint _ (ret _) => apply footprint_ret
  | |- footprint _ throw => apply footprint_throw
  | |- footprint _ (process_exit _) => apply footprint_exit
  | |- footprint _ (lift _) => apply footprint_lift
  | |- footprint _ (emit _) => apply footprint_emit; simpl; auto
  | |- footprint _ (console_log _) => apply footprint_emit; simpl; auto
  | |- footprint _ (existsSync _) => apply footprint_existsSync; simpl; auto
  | |- footprint _ (readFileSync _) => apply footprint_readFileSync; simpl; auto
  | |- footprint _ (writeFileSync _ _) => apply footprint_writeFileSync; simpl; auto
  | |- footprint _ (match ?x with _ => _ end) => destruct x
  | |- footprint _ (if ?x then _ else _) => destruct x
  | |- footprint _ (let '(_, _) := ?x in _) => destruct x
  end.

Ltac footprint_auto := repeat footprint_step; eauto with footprint.

(** * Exact runs of the readers *)

Lemma logged_nil (st : state) : logged st [] = st.
Proof. destruct st. unfold logged. simpl. rewrite app_nil_r. reflexivity. Qed.

Lemma logged_logged (st : state) (t1 t2 : list event) :
  logged (logged st t1) t2 = logged st (t1 ++ t2).
Proof. unfold logged. simpl. rewrite app_assoc. reflexivity. Qed.

Section Readers.
Context {RT : Runtime}.

Lemma loadJson_run (path : string) (st : state) :
  loadJson path st
  = (Ret (loaded (fs st) path),
     logged st (EvExists path :: match fs st !! path with
                                 | Some _ => [EvRead path]
                                 | None => []
                                 end)).
Proof.
  unfold loadJson, try_catch, bind, existsSync, readFileSync, loaded, logged,
    JSON_parse_or_throw, ret, throw. simpl.
  destruct (fs st !! path) as [[text|]|] eqn:Hp; simpl; rewrite ?Hp.
  - destruct (JSON_parse text); simpl; rewrite <- app_assoc; reflexivity.
  - rewrite <- app_assoc. reflexivity.
  - reflexivity.
Qed.

Context (E : Env).

Lemma token_from_file_run (p : string) (st : state) :
  token_from_file p st
  = (Ret (source_file (fs st) p),
     logged st (EvExists p :: match fs st !! p with
                              | Some _ => [EvRead p]
                              | None => []
                              end)).
Proof.
  unfold token_from_file, try_catch, bind, existsSync, readFileSync, source_file,
    token_in, logged, JSON_parse_or_throw, ret, throw. simpl.
  destruct (fs st !! p) as [[text|]|] eqn:Hp; simpl; rewrite ?Hp.
  - destruct (JSON_parse text); simpl; rewrite <- app_assoc; reflexivity.
  - rewrite <- app_assoc. reflexivity.
  - reflexivity.
Qed.

(** The files are tried in order; the first token met is returned and the
    later files are not even opened. *)
Lemma token_from_files_run (paths : list string) (st : state) :
  exists t,
    token_from_files paths st
    = (Ret (default VNull (first_some (map (source_file (fs st)) paths))), logged st t)
    /\ Forall is_probe t.
Proof.
  revert st. induction paths as [|p rest IH]; intros st.
  - exists []. rewrite logged_nil. split; [reflexivity|constructor].
  - cbn [token_from_files]. unfold bind at 1. rewrite token_from_file_run.
    set (t1 := EvExists p :: _).
    assert (Ht1 : Forall is_probe t1).
    { unfold t1. destruct (fs st !! p); repeat constructor. }
    destruct (source_file (fs st) p) as [tok|] eqn:Hs.
    + exists t1. split; [|exact Ht1].
      cbn [map first_some]. rewrite Hs. reflexivity.
    + destruct (IH (logged st t1)) as (t2 & Hrun & Ht2).
      exists (t1 ++ t2). split; [|apply Forall_app; auto].
      rewrite Hrun, logged_logged. cbn [map first_some fs logged]. rewrite Hs.
      reflexivity.
Qed.

Lemma token_from_keychain_run (st : state) :
  exists t,
    token_from_keychain E st = (Ret (source_keychain E), logged st t)
    /\ Forall is_probe t.
Proof.
  unfold token_from_keychain, source_keychain.
  destruct (String.eqb (os_platform E) "darwin").
  - exists [EvExec "security" ["find-generic-password"; "-s"; "Claude Code-credentials"; "-w"]].
    split; [|repeat constructor].
    unfold try_catch, bind, execFileSync, emit, JSON_parse_or_throw, token_in, logged,
      ret, throw. simpl.
    destruct (execFile E _ _ _) as [out|]; simpl; [|reflexivity].
    destruct (JSON_parse (Str.trim out)) as [v|]; simpl; [|reflexivity].
    destruct (truthy (accessToken_of v)); reflexivity.
  - exists []. rewrite logged_nil. split; [reflexivity|constructor].
Qed.

Lemma token_from_wincred_run (st : state) :
  exists t,
    token_from_wincred E st = (Ret (source_wincred E), logged st t)
    /\ Forall is_probe t.
Proof.
  unfold token_from_wincred, source_wincred.
  destruct (IS_WIN E); cbn [andb].
  - exists [EvExec "powershell" ["-NoProfile"; "-ExecutionPolicy"; "Bypass"; "-Command"]].
    split; [|repeat constructor].
    unfold run_powershell, token_in, JSON_parse_or_throw.
    unfold try_catch, bind, emit, logged, ret, throw.
    generalize (ps_script_output E win_cred_keys). intros out. cbn [fs trace].
    destruct (powershell_runs E); cbn [fst snd]; [|reflexivity].
    destruct (String.eqb (Str.trim out) EmptyString); cbn [negb]; [reflexivity|].
    destruct (JSON_parse (Str.trim out)) as [v|]; [|reflexivity].
    destruct (truthy (accessToken_of v)); reflexivity.
  - exists []. rewrite logged_nil. split; [reflexivity|constructor].
Qed.

(** [getToken] always returns, leaves the files alone, and returns the
    token of the first source that has one, [null] if none has. *)
Lemma getToken_run (st : state) :
  exists t,
    getToken E st
    = (Ret (default VNull (first_some (credential_sources E (fs st)))), logged st t)
    /\ Forall is_probe t.
Proof.
  unfold getToken, credential_sources. cbn [app first_some]. unfold source_env at 1.
  destruct (truthy (env_get E "CLAUDE_CODE_OAUTH_TOKEN")).
  - exists []. rewrite logged_nil. split; [reflexivity|constructor].
  - unfold bind at 1.
    destruct (token_from_keychain_run st) as (t1 & -> & Ht1).
    destruct (source_keychain E) as [tok|].
    + exists t1. split; [reflexivity|exact Ht1].
    + unfold bind at 1.
      destruct (token_from_wincred_run (logged st t1)) as (t2 & -> & Ht2).
      rewrite logged_logged.
      destruct (source_wincred E) as [tok|].
      * exists (t1 ++ t2). split; [reflexivity|apply Forall_app; auto].
      * destruct (token_from_files_run (credPaths E) (logged st (t1 ++ t2)))
          as (t3 & -> & Ht3).
        rewrite logged_logged. exists ((t1 ++ t2) ++ t3).
        split; [reflexivity|]. repeat (apply Forall_app; split); auto.
Qed.

End Readers.

Lemma first_some_app {A} (pre post : list (option A)) (a : A) :
  Forall (eq None) pre -> first_some (pre ++ Some a :: post) = Some a.
Proof.
  induction 1 as [|x pre Hx _ IH]; [reflexivity|]. subst x. exact IH.
Qed.

Lemma first_some_none {A} (l : list (option A)) :
  first_some l = None <-> Forall (eq None) l.
Proof.
  induction l as [|[a|] l IH]; simpl.
  - split; [constructor|reflexivity].
  - split; [discriminate|]. intros H. apply Forall_cons in H as [H _]. discriminate.
  - rewrite IH. split; [intros H; constructor; auto|].
    intros H. apply Forall_cons in H as [_ H]. exact H.
Qed.

Lemma token_in_truthy `{RT : Runtime} (text : string) (tok : value) :
  token_in text = Some tok -> truthy tok = true.
Proof.
  unfold token_in. destruct (JSON_parse text) as [v|]; [|discriminate].
  destruct (truthy (accessToken_of v)) eqn:Ht; [|discriminate].
  intros [= <-]. exact Ht.
Qed.

Lemma sources_truthy `{RT : Runtime} (E : Env) (files : gmap string file) (tok : value) :
  Some tok ∈ credential_sources E files -> truthy tok = true.
Proof.
  unfold credential_sources. intros H.
  apply elem_of_app in H as [H|H].
  - repeat (apply elem_of_cons in H as [H|H]).
    + unfold source_env in H. destruct (truthy (env_get E _)) eqn:Ht; [|discriminate].
      injection H as ->. exact Ht.
    + unfold source_keychain in H. destruct (String.eqb _ _); [|discriminate].
      destruct (execFile E _ _ _); [|discriminate]. symmetry in H.
      eapply token_in_truthy; eauto.
    + unfold source_wincred in H. destruct (_ && _); [|discriminate].
      destruct (String.eqb _ _); [discriminate|]. symmetry in H.
      eapply token_in_truthy; eauto.
    + apply elem_of_nil in H. contradiction.
  - apply list_elem_of_fmap in H as (p & Hp & _). unfold source_file in Hp.
    destruct (files !! p) as [[text|]|]; try discriminate. symmetry in Hp.
    eapply token_in_truthy; eauto.
Qed.

(** C4: credential resolution tries the environment variable, the macOS
    keychain, the Windows credential manager and the credential files in
    that order; it never raises and never touches a file; it returns the
    token of the first source that yields one, whatever the later sources
    hold, and returns null exactly when every source fails. *)
Theorem C4_getToken_first_source_wins `{RT : Runtime} (E : Env) (st : state) :
  (exists t, getToken E st
             = (Ret (default VNull (first_some (credential_sources E (fs st)))),
                logged st t))
  /\ (forall pre tok post,
        credential_sources E (fs st) = pre ++ Some tok :: post ->
        Forall (eq None) pre ->
        fst (getToken E st) = Ret tok)
  /\ (fst (getToken E st) = Ret VNull <-> Forall (eq None) (credential_sources E (fs st))).
Proof.
  destruct (getToken_run E st) as (t & Hrun & _).
  split; [eauto|]. rewrite Hrun. cbn [fst]. split.
  - intros pre tok post Hsrc Hpre. rewrite Hsrc, first_some_app by assumption. reflexivity.
  - rewrite <- first_some_none.
    destruct (first_some (credential_sources E (fs st))) as [tok|] eqn:Hf; simpl.
    + split; [|discriminate]. intros [= ->]. exfalso.
      assert (Hin : Some VNull ∈ credential_sources E (fs st)).
      { clear -Hf. induction (credential_sources E (fs st)) as [|[a|] l IH]; simpl in Hf.
        - discriminate.
        - injection Hf as ->. left.
        - right. auto. }
      apply sources_truthy in Hin. discriminate.
    + split; reflexivity.
Qed.


Lemma C4_witness :
  credential_sources (RT := Node.runtime) (session session_text) two_sources
  = [] ++ Some (VStr "sk-token") :: [None; None; Some (VStr "file-token")]
  /\ fst (getToken (RT := Node.runtime) (session session_text)
            {| fs := two_sources; trace := [] |})
     = Ret (VStr "sk-token").
Proof.
  split; [vm_compute; reflexivity|].
  refine (proj1 (proj2 (C4_getToken_first_source_wins (RT := Node.runtime) (session session_text)
            {| fs := two_sources; trace := [] |})) [] (VStr "sk-token")
            [None; None; Some (VStr "file-token")] _ _).
  - vm_compute. reflexivity.
  - constructor.
Defined.

(** C7: loading a JSON file never raises and never changes a file; a missing
    file, a file that cannot be read and a text that does not parse all give
    the empty snapshot; a text that parses gives its value. *)
Theorem C7_loadJson_never_raises `{RT : Runtime} (path : string) (st : state) :
  exists v t,
    loadJson path st = (Ret v, logged st t)
    /\ (fs st !! path = None -> v = empty_object)
    /\ (fs st !! path = Some Unreadable -> v = empty_object)
    /\ (forall text, fs st !! path = Some (Readable text) ->
          JSON_parse text = None -> v = empty_object)
    /\ (forall text w, fs st !! path = Some (Readable text) ->
          JSON_parse text = Some w -> v = w).
Proof.
  eexists _, _. split; [apply loadJson_run|]. unfold loaded.
  repeat split.
  - intros ->. reflexivity.
  - intros ->. reflexivity.
  - intros text Hf Hp. rewrite Hf. cbv iota beta. rewrite Hp. reflexivity.
  - intros text w Hf Hp. rewrite Hf. cbv iota beta. rewrite Hp. reflexivity.
Qed.

Lemma C7_witness :
  fst (loadJson (RT := Node.runtime) cache_path {| fs := corrupt; trace := [] |})
  = Ret empty_object
  /\ fst (loadJson (RT := Node.runtime) cache_path {| fs := ∅; trace := [] |})
     = Ret empty_object.
Proof.
  split.
  - destruct (C7_loadJson_never_raises (RT := Node.runtime) cache_path {| fs := corrupt; trace := [] |})
      as (v & t & Hrun & _ & _ & Hbad & _).
    rewrite Hrun. cbn [fst]. f_equal. apply (Hbad "{oops"); vm_compute; reflexivity.
  - destruct (C7_loadJson_never_raises (RT := Node.runtime) cache_path {| fs := ∅; trace := [] |})
      as (v & t & Hrun & Hmiss & _).
    rewrite Hrun. cbn [fst]. f_equal. apply Hmiss. vm_compute. reflexivity.
Defined.

Lemma str_app_assoc (a b c : string) : (a +:+ b) +:+ c = a +:+ (b +:+ c).
Proof.
  induction a as [|x a IH]; [reflexivity|].
  change (String x ((a +:+ b) +:+ c) = String x (a +:+ (b +:+ c))).
  f_equal. exact IH.
Qed.

Section NumberText.
Context {RT : Runtime}.

Lemma Number_toString_of_Z (z : Z) :
  Z.abs z < 2 ^ 53 -> Number_toString (of_Z z) = Str.of_Z z.
Proof.
  intros Hz. unfold Number_toString. rewrite to_int_of_Z by assumption.
  destruct z as [|p|p]; [reflexivity| |].
  - rewrite of_Z_pos by lia. reflexivity.
  - rewrite of_Z_neg by lia. reflexivity.
Qed.

Lemma ToNumber_num (x : num) : ToNumber (VNum x) = x.
Proof. reflexivity. Qed.

Lemma toFixed1_div_million (a : Z) :
  0 < a < 2 ^ 52 ->
  exists n : Z,
    toFixed1 (div (of_Z a) (of_Z 1000000))
    = Str.of_Z (n / 10) +:+ "." +:+ Str.of_Z (n mod 10)
    /\ 2 * Z.abs (100000 * n - a) <= 100000.
Proof.
  intros Ha. destruct (tenths_div_million a Ha) as (m & k & n & Heq & Hk & Hten & Hn).
  exists n. split; [|exact Hn]. rewrite Heq. unfold toFixed1. rewrite Hten.
  replace (geb (SFabs (S754_finite false m (- k))) (of_Z (10 ^ 21))) with false.
  - reflexivity.
  - change (of_Z (10 ^ 21)) with (S754_finite false 7629394531250000 17).
    unfold geb, SFleb. cbn [SFabs SFcompare].
    destruct (Z.compare_spec 17 (- k)); first [lia | reflexivity].
Qed.

End NumberText.

(** C9: token counts are abbreviated as follows: an integer below 1000 is
    printed as it is; from 1000 up to a million the whole thousands are
    printed with a k (floor); from a million on, the count of millions is
    printed with one rounded decimal and an M, the printed tenth being a
    nearest one. So 500 gives 500, 1500 gives 1k and 1234000 gives 1.2M. *)
Theorem C9_ftok_abbreviation `{RT : Runtime} (n : Z) :
  (- 2 ^ 53 < n < 1000 -> ftok (VNum (of_Z n)) = Str.of_Z n)
  /\ (1000 <= n < 1000000 -> ftok (VNum (of_Z n)) = Str.of_Z (n / 1000) +:+ "k")
  /\ (1000000 <= n < 2 ^ 52 ->
      exists t : Z,
        ftok (VNum (of_Z n)) = Str.of_Z (t / 10) +:+ "." +:+ Str.of_Z (t mod 10) +:+ "M"
        /\ 2 * Z.abs (100000 * t - n) <= 100000)
  /\ ftok (VNum (of_Z 500)) = "500"
  /\ ftok (VNum (of_Z 1500)) = "1k"
  /\ ftok (VNum (of_Z 1234000)) = "1.2M".
Proof.
  assert (Hsmall : forall z, - 2 ^ 53 < z < 1000 -> ftok (VNum (of_Z z)) = Str.of_Z z).
  { intros z Hz. unfold ftok. rewrite ToNumber_num.
    rewrite !geb_of_Z by lia.
    destruct (Z.leb_spec 1000000 z); [lia|]. destruct (Z.leb_spec 1000 z); [lia|].
    cbn [ToString]. apply Number_toString_of_Z. lia. }
  assert (Hkilo : forall z, 1000 <= z < 1000000 ->
            ftok (VNum (of_Z z)) = Str.of_Z (z / 1000) +:+ "k").
  { intros z Hz. unfold ftok. rewrite ToNumber_num.
    rewrite !geb_of_Z by lia.
    destruct (Z.leb_spec 1000000 z); [lia|]. destruct (Z.leb_spec 1000 z); [|lia].
    rewrite floor_div_of_Z by lia. rewrite Number_toString_of_Z; [reflexivity|].
    assert (0 <= z / 1000 < 1000) by (split; [apply Z.div_pos|apply Z.div_lt_upper_bound]; lia).
    lia. }
  assert (Hmega : forall z, 1000000 <= z < 2 ^ 52 ->
            exists t : Z,
              ftok (VNum (of_Z z)) = Str.of_Z (t / 10) +:+ "." +:+ Str.of_Z (t mod 10) +:+ "M"
              /\ 2 * Z.abs (100000 * t - z) <= 100000).
  { intros z Hz. unfold ftok. rewrite ToNumber_num.
    rewrite geb_of_Z by lia. destruct (Z.leb_spec 1000000 z); [|lia].
    destruct (toFixed1_div_million z ltac:(lia)) as (t & Ht & Hb).
    exists t. split; [|exact Hb]. rewrite Ht.
    rewrite !str_app_assoc. reflexivity. }
  split; [apply Hsmall|]. split; [apply Hkilo|]. split; [apply Hmega|].
  split; [apply (Hsmall 500); lia|].
  split; [apply (Hkilo 1500); lia|].
  unfold ftok. vm_compute. reflexivity.
Qed.

Lemma C9_witness :
  ftok (RT := Node.runtime) (VNum (of_Z 999)) = "999"
  /\ ftok (RT := Node.runtime) (VNum (of_Z 999999)) = "999k"
  /\ exists t : Z,
       ftok (RT := Node.runtime) (VNum (of_Z 1150000))
       = Str.of_Z (t / 10) +:+ "." +:+ Str.of_Z (t mod 10) +:+ "M"
       /\ 2 * Z.abs (100000 * t - 1150000) <= 100000.
Proof.
  split; [apply (proj1 (C9_ftok_abbreviation (RT := Node.runtime) 999)); lia|].
  split; [apply (proj1 (proj2 (C9_ftok_abbreviation (RT := Node.runtime) 999999))); lia|].
  apply (proj1 (proj2 (proj2 (C9_ftok_abbreviation (RT := Node.runtime) 1150000)))); lia.
Defined.

Lemma reset_suffix_integers `{RT : Runtime} (E : Env) (resetsAt : value) (t : Z) :
  Date_getTime resetsAt = of_Z t ->
  Z.abs t < 2 ^ 53 -> Z.abs (clock E) < 2 ^ 53 -> Z.abs (t - clock E) < 2 ^ 52 ->
  reset_suffix E resetsAt
  = " " +:+ DIM E +:+ time_left (Z.max 0 ((t - clock E) / 1000)).
Proof.
  intros Hd Ht Hc Hdiff. unfold reset_suffix, time_left. rewrite Hd.
  rewrite sub_of_Z by lia.
  rewrite floor_div_of_Z by lia.
  assert (Hq : Z.abs ((t - clock E) / 1000) < 2 ^ 52).
  { pose proof (Z.div_mod (t - clock E) 1000 ltac:(lia)).
    pose proof (Z.mod_pos_bound (t - clock E) 1000 ltac:(lia)). lia. }
  rewrite max_of_Z by lia.
  set (secs := Z.max 0 ((t - clock E) / 1000)) in *.
  assert (Hs : 0 <= secs < 2 ^ 52) by (unfold secs; lia).
  rewrite (floor_div_of_Z secs 3600) by lia.
  rewrite (rem_of_Z secs 3600) by lia.
  assert (Hm : 0 <= secs mod 3600 < 3600) by (apply Z.mod_pos_bound; lia).
  rewrite (floor_div_of_Z (secs mod 3600) 60) by lia.
  set (h := secs / 3600) in *.
  assert (Hh : 0 <= h < 2 ^ 52).
  { unfold h. split; [apply Z.div_pos; lia|apply Z.div_lt_upper_bound; lia]. }
  assert (Hmm : 0 <= secs mod 3600 / 60 < 60).
  { split; [apply Z.div_pos; lia|apply Z.div_lt_upper_bound; lia]. }
  rewrite !gtb_of_Z by lia.
  rewrite (floor_div_of_Z h 24) by lia.
  rewrite (rem_of_Z h 24) by lia.
  assert (0 <= h / 24 < 2 ^ 52).
  { split; [apply Z.div_pos; lia|apply Z.div_lt_upper_bound; lia]. }
  assert (0 <= h mod 24 < 24) by (apply Z.mod_pos_bound; lia).
  rewrite !Number_toString_of_Z by lia.
  destruct (24 <? h); [reflexivity|]. destruct (0 <? h); reflexivity.
Qed.

(** C6: the time left is the reset time minus the current time in whole
    seconds, never below zero; with h the whole hours left, it is printed as
    days and hours when h is above 24, as hours and minutes when h is above
    0, and as minutes alone otherwise. So 30 minutes give (30m), 2 h 34 min
    give (2h34m), 3 days 20 hours give (3d20h), and a reset time that has
    passed gives (0m). *)
Theorem C6_time_left_format `{RT : Runtime} (E : Env) (resetsAt : value) (t : Z) :
  Date_getTime resetsAt = of_Z t ->
  Z.abs t < 2 ^ 53 -> Z.abs (clock E) < 2 ^ 53 -> Z.abs (t - clock E) < 2 ^ 52 ->
  let secs := Z.max 0 ((t - clock E) / 1000) in
  let h := secs / 3600 in
  let m := (secs mod 3600) / 60 in
  0 <= secs
  /\ reset_suffix E resetsAt
     = " " +:+ DIM E +:+
       (if 24 <? h then "(" +:+ Str.of_Z (h / 24) +:+ "d" +:+ Str.of_Z (h mod 24) +:+ "h)"
        else if 0 <? h then "(" +:+ Str.of_Z h +:+ "h" +:+ Str.of_Z m +:+ "m)"
        else "(" +:+ Str.of_Z m +:+ "m)")
  /\ (t - clock E = 30 * 60 * 1000 -> reset_suffix E resetsAt = " " +:+ DIM E +:+ "(30m)")
  /\ (t - clock E = (2 * 3600 + 34 * 60) * 1000 ->
      reset_suffix E resetsAt = " " +:+ DIM E +:+ "(2h34m)")
  /\ (t - clock E = (3 * 24 + 20) * 3600 * 1000 ->
      reset_suffix E resetsAt = " " +:+ DIM E +:+ "(3d20h)")
  /\ (t <= clock E -> reset_suffix E resetsAt = " " +:+ DIM E +:+ "(0m)").
Proof.
  intros Hd Ht Hc Hdiff secs h m.
  pose proof (reset_suffix_integers E resetsAt t Hd Ht Hc Hdiff) as Heq.
  split; [unfold secs; lia|]. split; [exact Heq|].
  rewrite Heq. repeat split.
  - intros ->. reflexivity.
  - intros ->. reflexivity.
  - intros ->. reflexivity.
  - intros Hle. replace (Z.max 0 ((t - clock E) / 1000)) with 0; [reflexivity|].
    assert ((t - clock E) / 1000 <= 0).
    { apply Z.div_le_upper_bound; lia. }
    lia.
Qed.


Lemma C6_witness :
  reset_suffix (RT := Node.runtime) (session session_text) (VStr "2025-11-01T15:00:40Z")
  = " " +:+ DIM (session session_text) +:+ "(2h34m)"
  /\ reset_suffix (RT := Node.runtime) (session session_text) (VStr "2025-11-01T12:00:00Z")
     = " " +:+ DIM (session session_text) +:+ "(0m)".
Proof.
  split.
  - apply (proj1 (proj2 (proj2 (proj2 (C6_time_left_format (RT := Node.runtime)
             (session session_text) (VStr "2025-11-01T15:00:40Z") 1762009240000
             ltac:(vm_compute; reflexivity) ltac:(simpl; lia) ltac:(simpl; lia)
             ltac:(simpl; lia)))))).
    reflexivity.
  - apply (proj2 (proj2 (proj2 (proj2 (proj2 (C6_time_left_format (RT := Node.runtime)
             (session session_text) (VStr "2025-11-01T12:00:00Z") 1761998400000
             ltac:(vm_compute; reflexivity) ltac:(simpl; lia) ltac:(simpl; lia)
             ltac:(simpl; lia))))))).
    simpl. lia.
Defined.

Lemma get_truthy (v : value) (k : string) :
  truthy v = true -> get v k = Ret (opt_get v k).
Proof. destruct v; simpl; try discriminate; reflexivity. Qed.

Lemma or_else_object_truthy (v : value) : truthy (or_else v empty_object) = true.
Proof. unfold or_else. destruct (truthy v) eqn:H; [exact H|reflexivity]. Qed.









Lemma copy_keys_not_exit keys data acc c : copy_keys keys data acc <> Exit c.
Proof.
  revert acc. induction keys as [|k keys IH]; intros acc; cbn [copy_keys]; [discriminate|].
  destruct data; cbn [get]; try discriminate; apply IH.
Qed.

Section Runs.
Context {RT : Runtime} (E : Env).

Lemma module_init_run (st : state) :
  module_init E st = (Ret tt, logged st (init_events E)).
Proof.
  unfold module_init, init_events. destruct (IS_WIN E).
  - unfold try_catch, bind, execFileSync, emit, logged, ret, throw. cbn [fs trace].
    destruct (execFile E "chcp.com" ["65001"] None); reflexivity.
  - rewrite logged_nil. reflexivity.
Qed.

Lemma footprint_lift_get (P : event -> Prop) (v : value) (k : string) :
  footprint P (lift (get v k)).
Proof. apply footprint_lift. Qed.

Lemma footprint_execFileSync (P : event -> Prop) cmd args cwd :
  P (EvExec cmd args) -> footprint P (execFileSync E cmd args cwd).
Proof. intros HP. unfold execFileSync. footprint_auto. Qed.

Lemma footprint_exec (P : event -> Prop) cmd args cwd :
  P (EvExec cmd args) -> footprint P (exec E cmd args cwd).
Proof.
  intros HP. unfold exec. apply footprint_try; [|apply footprint_ret].
  destruct cwd; try apply footprint_throw;
    (apply footprint_bind; [apply footprint_execFileSync; exact HP|intros; apply footprint_ret]).
Qed.

Lemma footprint_gitInfo (P : event -> Prop) cwd :
  (forall cmd args, P (EvExec cmd args)) -> footprint P (gitInfo E cwd).
Proof.
  intros HP. unfold gitInfo.
  repeat first [ apply footprint_exec; apply HP | footprint_step ].
Qed.

Lemma footprint_getToken (P : event -> Prop) :
  (forall e, is_probe e -> P e) -> footprint P (getToken E).
Proof.
  intros HP st o st' Hrun. destruct (getToken_run E st) as (t & Heq & Ht).
  rewrite Heq in Hrun. injection Hrun as <- <-. exists t.
  split; [reflexivity|]. split; [eapply Forall_impl; eauto|]. reflexivity.
Qed.

Lemma footprint_render (P : event -> Prop) data cache :
  (forall cmd args, P (EvExec cmd args)) -> (forall l, P (EvStdout l)) ->
  footprint P (render E data cache).
Proof.
  intros Hex Hout. unfold render, model_part, branch_part, context_part, usage_part.
  repeat first [ apply footprint_gitInfo; apply Hex | footprint_step ].
Qed.




End Runs.

Lemma stdout_of_app (a b : list event) : stdout_of (a ++ b) = stdout_of a ++ stdout_of b.
Proof. unfold stdout_of. apply omap_app. Qed.

Lemma stdout_of_quiet (t : list event) :
  Forall (fun e => ~ is_stdout e) t -> stdout_of t = [].
Proof.
  induction 1 as [|e t He _ IH]; [reflexivity|].
  unfold stdout_of in *. cbn [omap]. destruct e; try exact IH.
  exfalso. apply He. exact I.
Qed.


Lemma first_some_in {A} (l : list (option A)) (a : A) :
  first_some l = Some a -> Some a ∈ l.
Proof.
  induction l as [|[b|] l IH]; simpl; intros H.
  - discriminate.
  - injection H as ->. left.
  - right. auto.
Qed.




Lemma get_not_nullish (v : value) (k : string) :
  nullish v = false -> get v k = Ret (opt_get v k).
Proof. destruct v; simpl; try discriminate; reflexivity. Qed.

Lemma copy_keys_snapshot `{RT : Runtime} (E : Env) (data : value) :
  nullish data = false ->
  copy_keys ["five_hour"; "seven_day"] data
    [("cached_at", VStr (Date_toISOString (clock E)))]
  = Ret (match snapshot E data with VObj c => c | _ => [] end).
Proof.
  intros Hn. cbn [copy_keys]. rewrite !get_not_nullish by assumption.
  unfold snapshot.
  destruct (truthy (opt_get data "five_hour")), (truthy (opt_get data "seven_day"));
    reflexivity.
Qed.

Lemma prefixes_prefix (s c : string) : c ∈ Str.prefixes s -> String.prefix c s = true.
Proof.
  revert c. induction s as [|a s IH]; intros c Hc; cbn [Str.prefixes] in Hc.
  - apply list_elem_of_singleton in Hc. subst c. reflexivity.
  - apply elem_of_cons in Hc as [->|Hc]; [reflexivity|].
    apply list_elem_of_fmap in Hc as (c' & -> & Hc'). cbn [String.prefix].
    destruct (ascii_dec a a) as [_|Hne]; [|contradiction]. apply IH, Hc'.
Qed.

(** C1: a successful fetch saves the snapshot with one writeFileSync
    straight onto the cache path: there is no temporary file and no rename.
    While that write is under way another process finds at the path a prefix
    of the new text, the empty file at first; its load never raises and
    returns what the prefix parses to, or the empty snapshot when it does
    not parse. *)
Theorem C1_save_overwrites_in_place `{RT : Runtime} (E : Env) (body : string)
    (data : value) (st : state) :
  JSON_parse body = Some data -> nullish data = false ->
  fs st !! CACHE_FILE E <> Some Unreadable ->
  let text := JSON_stringify (snapshot E data) in
  on_response_end E body st
  = (Ret tt, {| fs := <[CACHE_FILE E := Readable text]> (fs st);
                trace := trace st ++ [EvWrite (CACHE_FILE E) text] |})
  /\ forall files', files' ∈ during_write (fs st) (CACHE_FILE E) text ->
       exists c, String.prefix c text = true
                 /\ files' !! CACHE_FILE E = Some (Readable c)
                 /\ load_from E files'
                    = Ret (match JSON_parse c with Some v => v | None => empty_object end).
Proof.
  intros Hp Hn Hw text. split.
  - unfold on_response_end, try_catch, bind, JSON_parse_or_throw, lift. rewrite Hp.
    cbn [ret]. rewrite copy_keys_snapshot by assumption.
    unfold snapshot in text |- *. fold text.
    unfold writeFileSync. destruct (fs st !! CACHE_FILE E) as [[old|]|]; try reflexivity.
    contradiction.
  - intros files' Hin. unfold during_write in Hin.
    apply list_elem_of_fmap in Hin as (c & -> & Hc). exists c.
    split; [apply prefixes_prefix, Hc|].
    split; [apply lookup_insert_eq|].
    unfold load_from. rewrite loadJson_run. cbn [fst fs]. unfold loaded.
    rewrite lookup_insert_eq. reflexivity.
Qed.


Lemma C1_witness :
  exists data,
    Node.JSON_parse fresh_answer = Some data
    /\ on_response_end (RT := Node.runtime) saving fresh_answer {| fs := cached; trace := [] |}
       = (Ret tt, {| fs := <[cache_path := Readable fresh_text]> cached;
                     trace := [EvWrite cache_path fresh_text] |}).
Proof.
  destruct (Node.JSON_parse fresh_answer) as [data|] eqn:Hp; [|vm_compute in Hp; discriminate].
  exists data. split; [reflexivity|].
  assert (Hn : nullish data = false).
  { vm_compute in Hp. injection Hp as <-. reflexivity. }
  assert (Hw : cached !! CACHE_FILE (RT := Node.runtime) saving <> Some Unreadable).
  { vm_compute. discriminate. }
  pose proof (proj1 (C1_save_overwrites_in_place (RT := Node.runtime) saving fresh_answer data
                       {| fs := cached; trace := [] |} Hp Hn Hw)) as Hrun.
  rewrite Hrun. vm_compute in Hp. injection Hp as <-. reflexivity.
Defined.

(** The save of a fresh answer over an existing cache: the only file
    operation is a write onto the cache path, and a load that meets the file
    emptied by that write gets the empty snapshot, which is neither the old
    snapshot nor the new one. *)
Lemma C1_partial_write_is_visible :
  let st := snd (run (RT := Node.runtime) saving cached) in
  let emptied := <[cache_path := Readable EmptyString]> cached in
  trace st = [EvRequest "Bearer sk-token"; EvWrite cache_path fresh_text]
  /\ emptied ∈ during_write cached cache_path fresh_text
  /\ load_from (RT := Node.runtime) saving emptied = Ret empty_object
  /\ load_from (RT := Node.runtime) saving cached <> Ret empty_object
  /\ load_from (RT := Node.runtime) saving (fs st) <> Ret empty_object.
Proof.
  cbv zeta. split; [vm_compute; reflexivity|].
  split; [unfold during_write; left|].
  split; [vm_compute; reflexivity|].
  split; vm_compute; discriminate.
Qed.

Section RenderRuns.
Context {RT : Runtime} (E : Env).


Lemma read_session_parsed (st : state) (raw : string) (data : value) :
  stdin_data E = Some raw -> Str.trim raw <> EmptyString ->
  JSON_parse (Str.trim raw) = Some data ->
  read_session E st = (Ret (Some data), logged st [EvReadStdin]).
Proof.
  intros Hs Hne Hp. unfold read_session, try_catch, bind, emit, JSON_parse_or_throw,
    logged, ret. cbn [fs trace]. rewrite Hs.
  destruct (String.eqb_spec (Str.trim raw) EmptyString); [contradiction|].
  rewrite Hp. reflexivity.
Qed.


(** A render run whose standard input parses: up to the trigger. *)
Lemma render_mode_run (files : gmap string file) (raw : string) (data : value) :
  fetch_only E = false -> stdin_isTTY E = false ->
  stdin_data E = Some raw -> Str.trim raw <> EmptyString ->
  JSON_parse (Str.trim raw) = Some data ->
  run E files
  = let '(o, st) :=
      (fetchUsage E;;; render E data (loaded files (CACHE_FILE E)))
        {| fs := files;
           trace := init_events E ++ [EvReadStdin] ++ cache_read_events E files |} in
    (exit_status o, st).
Proof.
  intros Hflag Htty Hs Hne Hp. unfold fetch_only in Hflag.
  unfold run, script. unfold bind at 1. rewrite module_init_run.
  unfold main. rewrite Hflag, Htty. unfold bind at 1.
  rewrite (read_session_parsed _ raw data) by assumption.
  unfold bind at 1. rewrite loadJson_run. rewrite !logged_logged.
  unfold logged, cache_read_events. cbn [fs trace app]. rewrite <- app_assoc.
  reflexivity.
Qed.

End RenderRuns.





(** The trigger always returns: it probes for a token and spawns the child
    when there is one; it prints nothing and leaves the files alone. *)
Lemma fetchUsage_run `{RT : Runtime} (E : Env) (st : state) :
  exists t,
    fetchUsage E st = (Ret tt, logged st (EvTrigger :: t))
    /\ Forall (fun e => is_probe e \/ e = EvSpawn ["--fetch-only"] (IS_WIN E)) t.
Proof.
  unfold fetchUsage. unfold bind at 1. cbn [emit].
  change {| fs := fs st; trace := trace st ++ [EvTrigger] |} with (logged st [EvTrigger]).
  unfold bind. destruct (getToken_run E (logged st [EvTrigger])) as (t & -> & Ht).
  destruct (negb (truthy _)).
  - exists t. rewrite logged_logged. split; [reflexivity|].
    eapply Forall_impl; [exact Ht|]. auto.
  - exists (t ++ [EvSpawn ["--fetch-only"] (IS_WIN E)]). split.
    + unfold emit, logged. cbn [fs trace]. rewrite <- !app_assoc. reflexivity.
    + apply Forall_app. split; [eapply Forall_impl; [exact Ht|]; auto|].
      apply Forall_cons. split; [right; reflexivity|constructor].
Qed.

(** C5: when the text on standard input is JSON for null, the render run
    gets past the fallback, reads the cache and calls the trigger, and then
    fails on data.model: nothing is printed to standard output and the
    process ends with status 1. *)
Theorem C5_null_session_crashes `{RT : Runtime} (E : Env) (files : gmap string file)
    (raw : string) :
  fetch_only E = false -> stdin_isTTY E = false ->
  stdin_data E = Some raw -> Str.trim raw <> EmptyString ->
  JSON_parse (Str.trim raw) = Some VNull ->
  fst (run E files) = 1 /\ stdout_of (trace (snd (run E files))) = [].
Proof.
  intros Hflag Htty Hs Hne Hp.
  rewrite (render_mode_run E files raw VNull) by assumption.
  set (st2 := {| fs := files; trace := _ |}).
  destruct (fetchUsage_run E st2) as (t & Hfetch & Ht).
  assert (Hrest : (fetchUsage E;;; render E VNull (loaded files (CACHE_FILE E))) st2
                  = (Throw, logged st2 (EvTrigger :: t))).
  { unfold bind at 1. rewrite Hfetch. reflexivity. }
  rewrite Hrest. cbn [exit_status fst snd logged trace st2].
  split; [reflexivity|].
  assert (Hinit : Forall (fun e => ~ is_stdout e) (init_events E)).
  { unfold init_events. destruct (IS_WIN E); repeat constructor; auto. }
  rewrite !stdout_of_app. rewrite (stdout_of_quiet _ Hinit).
  assert (Hq : stdout_of (EvTrigger :: t) = []).
  { apply stdout_of_quiet. constructor; [auto|].
    eapply Forall_impl; [exact Ht|]. intros e [He| ->]; [destruct e; auto|auto]. }
  rewrite Hq. unfold cache_read_events. destruct (files !! CACHE_FILE E); reflexivity.
Qed.


Lemma C5_witness :
  fst (run (RT := Node.runtime) (session "null") cached) = 1
  /\ stdout_of (trace (snd (run (RT := Node.runtime) (session "null") cached))) = [].
Proof.
  apply (C5_null_session_crashes (RT := Node.runtime) (session "null") cached "null");
    try reflexivity.
  vm_compute. discriminate.
Defined.

Lemma round_of_Z (z : Z) : Z.abs z < 2 ^ 53 -> round (of_Z z) = of_Z z.
Proof.
  intros Hz. destruct z as [|p|p]; [reflexivity| |].
  - rewrite of_Z_pos by lia. pose proof (canon_digits p ltac:(lia)) as [Hd Hc]. cbv zeta in *.
    unfold canon, round. set (d := Z.pos (digits2_pos p)) in *.
    destruct (Z.leb_spec 0 (d - 53)).
    + reflexivity.
    + rewrite Z2Pos.id by lia. cbn [cond_Zopp].
      replace (- (d - 53)) with (53 - d) by lia. replace (1 - (d - 53)) with (1 + (53 - d)) by lia.
      assert (0 < 2 ^ (53 - d)) by (apply Z.pow_pos_nonneg; lia).
      rewrite Z.pow_add_r by lia. change (2 ^ 1) with 2.
      replace ((2 * (Z.pos p * 2 ^ (53 - d)) + 2 ^ (53 - d)) / (2 * 2 ^ (53 - d))) with (Z.pos p).
      * cbn [Z.eqb]. fold d. apply of_Z_pos. lia.
      * apply (Z.div_unique _ _ _ (2 ^ (53 - d))); [left; lia|ring].
  - rewrite of_Z_neg by lia. pose proof (canon_digits p ltac:(lia)) as [Hd Hc]. cbv zeta in *.
    unfold canon, round. set (d := Z.pos (digits2_pos p)) in *.
    destruct (Z.leb_spec 0 (d - 53)).
    + reflexivity.
    + rewrite Z2Pos.id by lia. cbn [cond_Zopp].
      replace (- (d - 53)) with (53 - d) by lia. replace (1 - (d - 53)) with (1 + (53 - d)) by lia.
      assert (0 < 2 ^ (53 - d)) by (apply Z.pow_pos_nonneg; lia).
      rewrite Z.pow_add_r by lia. change (2 ^ 1) with 2.
      replace ((2 * - (Z.pos p * 2 ^ (53 - d)) + 2 ^ (53 - d)) / (2 * 2 ^ (53 - d)))
        with (Z.neg p).
      * cbn [Z.eqb]. fold d. apply of_Z_neg. lia.
      * apply (Z.div_unique _ _ _ (2 ^ (53 - d))); [left; lia|].
        change (Z.neg p) with (- Z.pos p). ring.
Qed.

(** * Strings *)

Lemma str_length_app (a b : string) :
  String.length (a +:+ b) = (String.length a + String.length b)%nat.
Proof.
  induction a as [|x a IH]; [reflexivity|].
  change (S (String.length (a +:+ b)) = S (String.length a + String.length b)).
  f_equal. exact IH.
Qed.

Lemma prefix_app (a b : string) : String.prefix a (a +:+ b) = true.
Proof.
  induction a as [|x a IH]; [destruct b; reflexivity|].
  change (String.prefix (String x a) (String x (a +:+ b)) = true).
  cbn [String.prefix]. destruct (ascii_dec x x) as [_|Hne]; [exact IH|contradiction].
Qed.

Lemma substring_all (s : string) : String.substring 0 (String.length s) s = s.
Proof. induction s as [|x s IH]; [reflexivity|]. cbn. f_equal. exact IH. Qed.

Lemma substring_skip (a b : string) (n : nat) :
  String.substring (String.length a) n (a +:+ b) = String.substring 0 n b.
Proof.
  induction a as [|x a IH]; [reflexivity|].
  change (String.substring (S (String.length a)) n (String x (a +:+ b))
          = String.substring 0 n b).
  cbn [String.substring]. exact IH.
Qed.

Lemma substring_head (a b : string) :
  String.substring 0 (String.length a) (a +:+ b) = a.
Proof.
  induction a as [|x a IH]; [destruct b; reflexivity|].
  change (String.substring 0 (S (String.length a)) (String x (a +:+ b)) = String x a).
  cbn [String.substring]. f_equal. exact IH.
Qed.

Lemma drop_app (a b : string) : Str.drop (String.length a) (a +:+ b) = b.
Proof.
  unfold Str.drop. rewrite str_length_app.
  replace (String.length a + String.length b - String.length a)%nat
    with (String.length b) by lia.
  rewrite substring_skip. apply substring_all.
Qed.

Lemma take_app (a b : string) : Str.take (String.length a) (a +:+ b) = a.
Proof. apply substring_head. Qed.

Lemma replace_first_head (pat rep rest : string) :
  Str.replace_first pat rep (pat +:+ rest) = rep +:+ rest.
Proof.
  assert (Hun : forall s, Str.replace_first pat rep s
            = if String.prefix pat s then rep +:+ Str.drop (String.length pat) s
              else match s with
                   | EmptyString => EmptyString
                   | String a r => String a (Str.replace_first pat rep r)
                   end).
  { intros []; reflexivity. }
  rewrite Hun, prefix_app, drop_app. reflexivity.
Qed.

Lemma endsWith_app (s p : string) : Str.endsWith (s +:+ p) p = true.
Proof.
  unfold Str.endsWith. rewrite str_length_app. apply andb_true_intro. split.
  - apply Nat.leb_le. lia.
  - replace (String.length s + String.length p - String.length p)%nat
      with (String.length s) by lia.
    rewrite drop_app. apply String.eqb_refl.
Qed.

(** * Commands *)

Section Git.
Context (E : Env).

Lemma exec_run cmd args d st :
  exec E cmd args (VStr d) st
  = (Ret (exec_text E cmd args d), logged st [EvExec cmd args]).
Proof.
  unfold exec, exec_text, try_catch, bind, execFileSync, emit, logged, ret, throw.
  cbn [fs trace]. destruct (execFile E cmd args (Some d)); reflexivity.
Qed.

(** X1: in a repository whose origin is git@github.com:PATH.git, gitInfo
    returns the branch, the dirty flag (status output not empty) and the
    remote https://github.com/PATH; a remote that neither starts with the
    ssh prefix nor ends in .git is returned as it is. *)
Theorem X1_gitInfo_remote_url (d path : string) (st : state) :
  exec_text E "git" git_branch d <> EmptyString ->
  (exec_text E "git" git_remote d = "git@github.com:" +:+ path +:+ ".git" ->
   fst (gitInfo E (VStr d) st)
   = Ret {| branch := exec_text E "git" git_branch d;
            dirty := negb (String.eqb (exec_text E "git" git_status d) EmptyString);
            remote := "https://github.com/" +:+ path |})
  /\ (Str.startsWith (exec_text E "git" git_remote d) "git@github.com:" = false ->
      Str.endsWith (exec_text E "git" git_remote d) ".git" = false ->
      fst (gitInfo E (VStr d) st)
      = Ret {| branch := exec_text E "git" git_branch d;
               dirty := negb (String.eqb (exec_text E "git" git_status d) EmptyString);
               remote := exec_text E "git" git_remote d |}).
Proof.
  intros Hb.
  assert (Hrun : fst (gitInfo E (VStr d) st)
            = Ret {| branch := exec_text E "git" git_branch d;
                     dirty := negb (String.eqb (exec_text E "git" git_status d) EmptyString);
                     remote :=
                       (let url := exec_text E "git" git_remote d in
                        let url :=
                          if Str.startsWith url "git@github.com:"
                          then Str.replace_first "git@github.com:" "https://github.com/" url
                          else url in
                        if Str.endsWith url ".git"
                        then Str.take (String.length url - 4) url else url) |}).
  { unfold gitInfo. unfold bind at 1. rewrite exec_run. fold git_branch.
    destruct (String.eqb_spec (exec_text E "git" git_branch d) EmptyString) as [He|_];
      [contradiction|].
    unfold bind at 1. cbn [ret].
    destruct (String.eqb_spec (exec_text E "git" git_branch d) EmptyString) as [He|_];
      [contradiction|].
    unfold bind at 1. rewrite exec_run. unfold bind at 1. rewrite exec_run.
    reflexivity. }
  split.
  - intros Hr. rewrite Hrun, Hr. cbv zeta. do 2 f_equal.
    unfold Str.startsWith. rewrite prefix_app, replace_first_head.
    rewrite <- str_app_assoc. rewrite endsWith_app.
    replace (String.length (("https://github.com/" +:+ path) +:+ ".git") - 4)%nat
      with (String.length ("https://github.com/" +:+ path)).
    + apply take_app.
    + rewrite (str_length_app _ ".git"). cbn [String.length]. lia.
  - intros Hs He. rewrite Hrun. cbv zeta. rewrite Hs, He. reflexivity.
Qed.

End Git.

Lemma X1_witness :
  fst (gitInfo (session session_text) (VStr "/work")
         {| fs := cached; trace := [] |})
  = Ret {| branch := "main"; dirty := false;
           remote := "https://github.com/craftowen/cc-alchemy-statusline" |}.
Proof.
  apply (proj1 (X1_gitInfo_remote_url (session session_text) "/work"
                  "craftowen/cc-alchemy-statusline" {| fs := cached; trace := [] |}
                  ltac:(vm_compute; discriminate))).
  vm_compute. reflexivity.
Defined.

(** X2: a usage segment. Without a utilization in the snapshot (the window
    is missing, or its utilization is undefined or null) the segment shows
    the label and two dashes. With an integer utilization p it shows the
    label, p in its colour and a percent sign, so a utilization of 0 is
    shown as 0% and not as dashes; when the window has a reset time, the
    time left follows. A snapshot that is null makes the segment throw. *)
Theorem X2_usage_segment `{RT : Runtime} (E : Env) (cache : value)
    (label key : string) (st : state) :
  let period := or_else (opt_get cache key) empty_object in
  let util := opt_get period "utilization" in
  let resetsAt := opt_get period "resets_at" in
  (nullish cache = true -> usage_part E cache label key st = (Throw, st))
  /\ (nullish cache = false -> nullish util = true ->
      usage_part E cache label key st
      = (Ret (DIM E +:+ label +:+ " " +:+ TEXT E +:+ "--" +:+ RST E), st))
  /\ (forall p, nullish cache = false -> util = VNum (of_Z p) -> Z.abs p < 2 ^ 53 ->
        truthy resetsAt = false ->
        usage_part E cache label key st
        = (Ret ((DIM E +:+ label +:+ " " +:+ pcolor E util +:+ Str.of_Z p +:+ "%")
                +:+ RST E), st))
  /\ (forall p t, nullish cache = false -> util = VNum (of_Z p) -> Z.abs p < 2 ^ 53 ->
        truthy resetsAt = true -> Date_getTime resetsAt = of_Z t ->
        Z.abs t < 2 ^ 53 -> Z.abs (clock E) < 2 ^ 53 -> Z.abs (t - clock E) < 2 ^ 52 ->
        usage_part E cache label key st
        = (Ret (((DIM E +:+ label +:+ " " +:+ pcolor E util +:+ Str.of_Z p +:+ "%")
                 +:+ " " +:+ DIM E +:+ time_left (Z.max 0 ((t - clock E) / 1000)))
                +:+ RST E), st)).
Proof.
  intros period util resetsAt. split.
  { intros Hn. destruct cache; try discriminate Hn; reflexivity. }
  assert (Hrun : nullish cache = false ->
            usage_part E cache label key st
            = if negb (nullish util) then
                (Ret ((if truthy resetsAt
                       then (DIM E +:+ label +:+ " " +:+ pcolor E util
                             +:+ Number_toString (round (ToNumber util)) +:+ "%")
                            +:+ reset_suffix E resetsAt
                       else DIM E +:+ label +:+ " " +:+ pcolor E util
                            +:+ Number_toString (round (ToNumber util)) +:+ "%")
                      +:+ RST E), st)
              else (Ret (DIM E +:+ label +:+ " " +:+ TEXT E +:+ "--" +:+ RST E), st)).
  { intros Hn. unfold usage_part. rewrite (get_not_nullish cache) by assumption.
    unfold bind, lift. fold period.
    rewrite !(get_truthy period) by apply or_else_object_truthy. fold util resetsAt.
    destruct (negb (nullish util)); reflexivity. }
  split; [|split].
  - intros Hn Hu. rewrite Hrun, Hu by assumption. reflexivity.
  - intros p Hn Hu Hp Hr. rewrite Hrun, Hr by assumption. rewrite Hu.
    cbn [nullish negb]. rewrite ToNumber_num, round_of_Z, Number_toString_of_Z by assumption.
    reflexivity.
  - intros p t Hn Hu Hp Hr Hd Ht Hc Hdiff. rewrite Hrun, Hr by assumption. rewrite Hu.
    cbn [nullish negb]. rewrite ToNumber_num, round_of_Z, Number_toString_of_Z by assumption.
    rewrite (reset_suffix_integers E resetsAt t) by assumption. reflexivity.
Qed.

Lemma X2_witness :
  usage_part (RT := Node.runtime) (session session_text) usage_44 "5h" "five_hour"
    {| fs := cached; trace := [] |}
  = (Ret (((DIM (session session_text) +:+ "5h" +:+ " " +:+ GREEN (session session_text)
            +:+ "0" +:+ "%")
           +:+ " " +:+ DIM (session session_text) +:+ "(2h34m)")
          +:+ RST (session session_text)),
     {| fs := cached; trace := [] |})
  /\ usage_part (RT := Node.runtime) (session session_text) usage_44 "7d" "seven_day"
       {| fs := cached; trace := [] |}
     = (Ret (DIM (session session_text) +:+ "7d" +:+ " " +:+ TEXT (session session_text)
             +:+ "--" +:+ RST (session session_text)),
        {| fs := cached; trace := [] |}).
Proof.
  pose proof (X2_usage_segment (RT := Node.runtime) (session session_text) usage_44
                "5h" "five_hour" {| fs := cached; trace := [] |}) as (_ & _ & _ & H5).
  pose proof (X2_usage_segment (RT := Node.runtime) (session session_text) usage_44
                "7d" "seven_day" {| fs := cached; trace := [] |}) as (_ & H7 & _).
  split.
  - apply (H5 0 1762009240000); first [reflexivity | simpl; lia].
  - apply H7; reflexivity.
Defined.




Section Render.
Context {RT : Runtime} (E : Env).




End Render.


(** X4: a run that renders (no fetch-only flag, standard input not a
    terminal) changes no file and sends no request itself, whatever it is
    fed: the only way to the network is the child it spawns. *)
Theorem X4_render_run_is_read_only `{RT : Runtime} (E : Env) (files : gmap string file) :
  fetch_only E = false -> stdin_isTTY E = false ->
  fs (snd (run E files)) = files
  /\ Forall read_only (trace (snd (run E files))).
Proof.
  intros Hflag Htty. unfold fetch_only in Hflag.
  assert (Hfp : footprint read_only (script E)).
  { unfold script, main. rewrite Hflag, Htty.
    apply footprint_bind.
    - intros st o st' H. rewrite module_init_run in H. injection H as <- <-.
      exists (init_events E). split; [reflexivity|]. split; [|reflexivity].
      unfold init_events. destruct (IS_WIN E); repeat constructor.
    - intros _. apply footprint_bind.
      + unfold read_session, JSON_parse_or_throw. footprint_auto.
      + intros [data|]; [|apply footprint_ret].
        apply footprint_bind.
        * unfold loadJson, JSON_parse_or_throw. footprint_auto.
        * intros cache. apply footprint_bind.
          -- unfold fetchUsage. apply footprint_bind; [apply footprint_emit; exact I|].
             intros _. apply footprint_bind.
             ++ apply footprint_getToken. intros [] H; try contradiction; exact I.
             ++ intros token. destruct (negb (truthy token));
                  [apply footprint_ret|apply footprint_emit; exact I].
          -- intros _. apply footprint_render; intros; exact I. }
  unfold run. destruct (script E {| fs := files; trace := [] |}) as [o st'] eqn:Hrun.
  destruct (Hfp _ _ _ Hrun) as (t & Ht & HP & Hfs). cbn [snd fs trace] in *.
  rewrite Ht. cbn [app]. split; [|exact HP].
  apply Hfs. eapply Forall_impl; [exact HP|]. intros [] H Hw; auto.
Qed.

Lemma X4_witness :
  fs (snd (run (RT := Node.runtime) (session session_text) cached)) = cached
  /\ Forall read_only (trace (snd (run (RT := Node.runtime) (session session_text) cached))).
Proof.
  apply (X4_render_run_is_read_only (RT := Node.runtime) (session session_text) cached);
    reflexivity.
Defined.

Lemma fetchUsage_exact `{RT : Runtime} (E : Env) (st : state) :
  exists t,
    Forall is_probe t
    /\ fetchUsage E st
       = (Ret tt,
          logged st (EvTrigger :: t
                     ++ match first_some (credential_sources E (fs st)) with
                        | Some _ => [EvSpawn ["--fetch-only"] (IS_WIN E)]
                        | None => []
                        end)).
Proof.
  unfold fetchUsage. unfold bind at 1. cbn [emit].
  change {| fs := fs st; trace := trace st ++ [EvTrigger] |} with (logged st [EvTrigger]).
  unfold bind. destruct (getToken_run E (logged st [EvTrigger])) as (t & -> & Ht).
  exists t. split; [exact Ht|]. cbn [logged fs].
  destruct (first_some (credential_sources E (fs st))) as [tok|] eqn:Hf;
    cbn [default from_option id].
  - assert (Htok : truthy tok = true).
    { eapply sources_truthy. apply first_some_in. exact Hf. }
    rewrite Htok. cbn [negb]. unfold emit, logged. cbn [fs trace].
    rewrite <- !app_assoc. reflexivity.
  - cbn [truthy negb]. unfold ret, logged. cbn [fs trace].
    rewrite app_nil_r, <- !app_assoc. reflexivity.
Qed.

Section Child.
Context {RT : Runtime} (E : Env).

(** What the end of an answer does to the state. *)
Lemma on_response_end_effect (body : string) (st : state) :
  on_response_end E body st = (Ret tt, st)
  \/ exists text,
       on_response_end E body st
       = (Ret tt, {| fs := <[CACHE_FILE E := Readable text]> (fs st);
                     trace := trace st ++ [EvWrite (CACHE_FILE E) text] |}).
Proof.
  unfold on_response_end, try_catch, bind, JSON_parse_or_throw, lift, writeFileSync,
    ret, throw.
  destruct (JSON_parse body) as [data|]; [|left; reflexivity].
  destruct (copy_keys _ data _) as [cache| |c] eqn:Hc.
  - destruct (fs st !! CACHE_FILE E) as [[|]|];
      first [left; reflexivity | right; eexists; reflexivity].
  - left. reflexivity.
  - exfalso. eapply copy_keys_not_exit; eauto.
Qed.

Lemma doFetchRequest_effect (token : value) (st : state) :
  exists o t,
    trace (snd (doFetchRequest E token st)) = trace st ++ t
    /\ fst (doFetchRequest E token st) = o
    /\ Forall (child_event E) t
    /\ forall p, p <> CACHE_FILE E ->
         fs (snd (doFetchRequest E token st)) !! p = fs st !! p.
Proof.
  unfold doFetchRequest. destruct (valid_header_value _).
  - unfold bind at 1 2 3. cbn [emit].
    set (st1 := {| fs := fs st; trace := _ |}).
    assert (Hquiet : forall o, exists o' t,
               trace (snd (o, st1)) = trace st ++ t /\ fst (o, st1) = o'
               /\ Forall (child_event E) t
               /\ forall p, p <> CACHE_FILE E -> fs (snd (o : outcome unit, st1)) !! p = fs st !! p).
    { intros o. exists o; eexists. split; [reflexivity|]. split; [reflexivity|].
      split; [repeat constructor|reflexivity]. }
    destruct (http E) as [| |status body]; try apply Hquiet.
    destruct (on_response_end_effect body st1) as [->|(text & ->)]; [apply Hquiet|].
    eexists; eexists. cbn [fst snd fs trace st1]. rewrite <- app_assoc.
    split; [reflexivity|]. split; [reflexivity|]. split.
    + repeat constructor.
    + intros p Hp. apply lookup_insert_ne. congruence.
  - exists Throw, []. rewrite app_nil_r. repeat split; constructor.
Qed.

End Child.

(** X5: the fetch-only child runs commands, looks at files and sends its
    request, but never prints, never reads standard input and never starts
    another child; the one file it may write is the cache file: every other
    file is after the run as it was before. *)
Theorem X5_child_touches_only_the_cache `{RT : Runtime} (E : Env)
    (files : gmap string file) :
  fetch_only E = true ->
  Forall (child_event E) (trace (snd (run E files)))
  /\ forall p, p <> CACHE_FILE E -> fs (snd (run E files)) !! p = files !! p.
Proof.
  intros Hflag. unfold fetch_only in Hflag.
  set (st0 := logged {| fs := files; trace := [] |} (init_events E)).
  destruct (getToken_run E st0) as (t & Hget & Ht).
  assert (Hinit : Forall (child_event E) (init_events E)).
  { unfold init_events. destruct (IS_WIN E); repeat constructor. }
  assert (Hprobe : Forall (child_event E) t).
  { eapply Forall_impl; [exact Ht|]. intros [] H; try contradiction; exact I. }
  assert (Hrun : run E files
                 = let '(o, st) :=
                     (let token := default VNull (first_some (credential_sources E (fs st0))) in
                      if negb (truthy token) then process_exit 1
                      else doFetchRequest E token) (logged st0 t) in
                   (exit_status o, st)).
  { unfold run, script. unfold bind at 1. rewrite module_init_run. fold st0.
    unfold main. rewrite Hflag. unfold fetchOnly. unfold bind at 1. rewrite Hget.
    reflexivity. }
  rewrite Hrun. clear Hrun. cbv zeta.
  destruct (negb (truthy _)).
  - cbn [process_exit snd logged trace fs st0 app]. split; [|reflexivity].
    apply Forall_app; auto.
  - destruct (doFetchRequest_effect E
                (default VNull (first_some (credential_sources E (fs st0)))) (logged st0 t))
      as (o & t' & Htr & _ & Hev & Hfs).
    destruct (doFetchRequest E _ (logged st0 t)) as [o' st'].
    cbn [fst snd] in *. split.
    + rewrite Htr. cbn [logged trace st0 app]. repeat (apply Forall_app; split); auto.
    + intros p Hp. rewrite (Hfs p Hp). reflexivity.
Qed.

Lemma X5_witness :
  Forall (child_event (RT := Node.runtime) saving)
    (trace (snd (run (RT := Node.runtime) saving two_sources)))
  /\ forall p, p <> CACHE_FILE (RT := Node.runtime) saving ->
       fs (snd (run (RT := Node.runtime) saving two_sources)) !! p = two_sources !! p.
Proof.
  apply (X5_child_touches_only_the_cache (RT := Node.runtime) saving two_sources).
  reflexivity.
Defined.

(** X6: what a successful fetch saves is what the next render loads,
    provided the text of the snapshot parses back to it: the snapshot holds
    the time of the fetch under cached_at, the five_hour and seven_day
    entries of the answer when they are truthy, and no other key, whatever
    else the answer holds. *)
Theorem X6_saved_snapshot_loads_back `{RT : Runtime} (E : Env) (body : string)
    (data : value) (st : state) :
  JSON_parse body = Some data -> nullish data = false ->
  fs st !! CACHE_FILE E <> Some Unreadable ->
  JSON_parse (JSON_stringify (snapshot E data)) = Some (snapshot E data) ->
  exists saved,
    fst (loadJson (CACHE_FILE E) (snd (on_response_end E body st))) = Ret saved
    /\ opt_get saved "cached_at" = VStr (Date_toISOString (clock E))
    /\ (forall k, k = "five_hour" \/ k = "seven_day" ->
          opt_get saved k = if truthy (opt_get data k) then opt_get data k else VUndef)
    /\ (forall k, k <> "cached_at" -> k <> "five_hour" -> k <> "seven_day" ->
          opt_get saved k = VUndef).
Proof.
  intros Hp Hn Hw Hrt. exists (snapshot E data). split.
  - assert (Hrun : on_response_end E body st
             = (Ret tt, {| fs := <[CACHE_FILE E := Readable (JSON_stringify (snapshot E data))]> (fs st);
                           trace := trace st ++ [EvWrite (CACHE_FILE E)
                                                   (JSON_stringify (snapshot E data))] |})).
    { unfold on_response_end, try_catch, bind, JSON_parse_or_throw, lift. rewrite Hp.
      cbn [ret]. rewrite copy_keys_snapshot by assumption.
      unfold snapshot. unfold writeFileSync.
      destruct (fs st !! CACHE_FILE E) as [[old|]|]; try reflexivity. contradiction. }
    rewrite Hrun, loadJson_run. cbn [fst snd fs]. unfold loaded.
    rewrite lookup_insert_eq, Hrt. reflexivity.
  - unfold snapshot. split; [reflexivity|]. split.
    + intros k [-> | ->]; cbn [opt_get app].
      * destruct (truthy (opt_get data "five_hour")) eqn:H5; cbn [app lookup_field String.eqb Ascii.eqb Bool.eqb];
          [reflexivity|].
        destruct (truthy (opt_get data "seven_day")); reflexivity.
      * destruct (truthy (opt_get data "five_hour")) eqn:H5,
                 (truthy (opt_get data "seven_day")) eqn:H7; reflexivity.
    + intros k H1 H2 H3. cbn [opt_get].
      apply String.eqb_neq in H1, H2, H3.
      destruct (truthy (opt_get data "five_hour")), (truthy (opt_get data "seven_day"));
        cbn [app lookup_field]; rewrite ?H1, ?H2, ?H3; reflexivity.
Qed.

Lemma X6_witness :
  exists saved,
    fst (loadJson (RT := Node.runtime) (CACHE_FILE (RT := Node.runtime) saving)
           (snd (on_response_end (RT := Node.runtime) saving fresh_answer
                   {| fs := cached; trace := [] |}))) = Ret saved
    /\ opt_get saved "cached_at" = VStr "2025-11-01T12:26:40.000Z"
    /\ (forall k, k = "five_hour" \/ k = "seven_day" ->
          opt_get saved k
          = if truthy (opt_get (default VNull (@JSON_parse Node.runtime fresh_answer)) k)
            then opt_get (default VNull (@JSON_parse Node.runtime fresh_answer)) k
            else VUndef)
    /\ (forall k, k <> "cached_at" -> k <> "five_hour" -> k <> "seven_day" ->
          opt_get saved k = VUndef).
Proof.
  apply (X6_saved_snapshot_loads_back (RT := Node.runtime) saving fresh_answer
           (default VNull (@JSON_parse Node.runtime fresh_answer))
           {| fs := cached; trace := [] |}).
  - vm_compute. reflexivity.
  - vm_compute. reflexivity.
  - vm_compute. discriminate.
  - vm_compute. reflexivity.
Defined.

Lemma lookup_set_field_ne (k k' : string) (v : value) (fields : list (string * value)) :
  k <> k' -> lookup_field k (set_field k' v fields) = lookup_field k fields.
Proof.
  intros Hne. induction fields as [|[k0 v0] rest IH]; cbn [set_field lookup_field].
  - apply String.eqb_neq in Hne. rewrite Hne. reflexivity.
  - destruct (String.eqb_spec k' k0) as [<-|Hk0]; cbn [lookup_field].
    + apply String.eqb_neq in Hne. rewrite Hne. reflexivity.
    + rewrite IH. reflexivity.
Qed.

Lemma lookup_set_field_eq (k : string) (v : value) (fields : list (string * value)) :
  lookup_field k (set_field k v fields) = v.
Proof.
  induction fields as [|[k0 v0] rest IH]; cbn [set_field lookup_field].
  - rewrite String.eqb_refl. reflexivity.
  - destruct (String.eqb_spec k k0) as [<-|Hk0]; cbn [lookup_field].
    + rewrite String.eqb_refl. reflexivity.
    + apply String.eqb_neq in Hk0. rewrite Hk0. exact IH.
Qed.

Lemma bind_ret {A B} (a : A) (k : A -> M B) (st : state) : bind (ret a) k st = k a st.
Proof. reflexivity. Qed.

Lemma write_then {A} (p data : string) (k : M A) (st : state) :
  fs st !! p <> Some Unreadable ->
  (writeFileSync p data;;; k) st
  = k {| fs := <[p := Readable data]> (fs st); trace := trace st ++ [EvWrite p data] |}.
Proof.
  intros Hw. unfold bind, writeFileSync.
  destruct (fs st !! p) as [[old|]|]; try reflexivity. contradiction.
Qed.

Section Configure.
Context {RT : Runtime} (E : Env).

Lemma configure_run (st : state) :
  configure E st
  = let settings := loaded (fs st) (settings_path E) in
    let st1 := logged st (settings_events E (fs st)) in
    if configured settings then console_log already_line st1
    else
      (let* settings' :=
         match settings with
         | VObj fields => ret (VObj (set_field "statusLine" statusline_entry fields))
         | VArr items => ret (VArr items)
         | _ => throw
         end in
       writeFileSync (settings_path E) (JSON_stringify_pretty settings');;;
       console_log (Str.CHECK +:+ " Claude Code statusline configured!");;;
       console_log "  Restart Claude Code to apply.") st1.
Proof.
  unfold configure. fold (settings_path E). fold (loadJson (settings_path E)).
  unfold bind at 1. rewrite loadJson_run. cbv zeta. unfold configured, statusline_command.
  destruct (value_is_string _ _); reflexivity.
Qed.

Lemma terminal_run (files : gmap string file) :
  fetch_only E = false -> stdin_isTTY E = true ->
  run E files
  = let '(o, st) := configure E {| fs := files; trace := init_events E |} in
    (exit_status o, st).
Proof.
  intros Hflag Htty. unfold fetch_only in Hflag.
  unfold run, script. unfold bind at 1. rewrite module_init_run.
  unfold main. rewrite Hflag, Htty. reflexivity.
Qed.

Lemma stdout_of_init : stdout_of (init_events E) = [].
Proof. unfold init_events. destruct (IS_WIN E); reflexivity. Qed.

Lemma stdout_of_settings files : stdout_of (settings_events E files) = [].
Proof. unfold settings_events. destruct (files !! settings_path E); reflexivity. Qed.

(** A terminal run on settings that are an object without the entry. *)
Lemma first_run (files : gmap string file) (fields : list (string * value)) :
  fetch_only E = false -> stdin_isTTY E = true ->
  loaded files (settings_path E) = VObj fields ->
  configured (VObj fields) = false ->
  files !! settings_path E <> Some Unreadable ->
  let text := JSON_stringify_pretty (VObj (set_field "statusLine" statusline_entry fields)) in
  fst (run E files) = 0
  /\ fs (snd (run E files)) = <[settings_path E := Readable text]> files
  /\ stdout_of (trace (snd (run E files))) = configured_lines.
Proof.
  intros Hflag Htty Hl Hc Hw text.
  rewrite terminal_run, configure_run by assumption. cbn [fs]. rewrite Hl, Hc.
  cbv zeta. rewrite bind_ret. fold text. rewrite write_then by exact Hw.
  unfold bind, console_log, emit. cbn [exit_status fst snd fs trace logged].
  split; [reflexivity|]. split; [reflexivity|].
  rewrite !stdout_of_app, stdout_of_init, stdout_of_settings. reflexivity.
Qed.

Lemma configured_run (files : gmap string file) :
  fetch_only E = false -> stdin_isTTY E = true ->
  configured (loaded files (settings_path E)) = true ->
  fst (run E files) = 0
  /\ fs (snd (run E files)) = files
  /\ stdout_of (trace (snd (run E files))) = [already_line].
Proof.
  intros Hflag Htty Hc.
  rewrite terminal_run, configure_run by assumption. cbn [fs]. rewrite Hc.
  cbv zeta. unfold console_log, emit. cbn [exit_status fst snd fs trace logged].
  split; [reflexivity|]. split; [reflexivity|].
  rewrite !stdout_of_app, stdout_of_init, stdout_of_settings. reflexivity.
Qed.

End Configure.

(** X7: started from a terminal, the script installs itself in the
    settings file. Settings that already name its command are left alone and
    one line says so. Settings that are an object without it (an absent or
    unparseable file counts as the empty object) are written back with the
    statusLine entry set and every other key as it was, and two lines report
    it. Settings that are neither an object nor an array (null, a number, a
    string) make the run fail with status 1, nothing written or printed. *)
Theorem X7_terminal_run_configures `{RT : Runtime} (E : Env) (files : gmap string file) :
  fetch_only E = false -> stdin_isTTY E = true ->
  let settings := loaded files (settings_path E) in
  (configured settings = true ->
   fst (run E files) = 0 /\ fs (snd (run E files)) = files
   /\ stdout_of (trace (snd (run E files))) = [already_line])
  /\ (forall fields, settings = VObj fields -> configured settings = false ->
        files !! settings_path E <> Some Unreadable ->
        let fields' := set_field "statusLine" statusline_entry fields in
        fst (run E files) = 0
        /\ fs (snd (run E files))
           = <[settings_path E := Readable (JSON_stringify_pretty (VObj fields'))]> files
        /\ stdout_of (trace (snd (run E files))) = configured_lines
        /\ lookup_field "statusLine" fields' = statusline_entry
        /\ forall k, k <> "statusLine" -> lookup_field k fields' = lookup_field k fields)
  /\ (match settings with VObj _ | VArr _ => False | _ => True end ->
      fst (run E files) = 1 /\ fs (snd (run E files)) = files
      /\ stdout_of (trace (snd (run E files))) = []).
Proof.
  intros Hflag Htty settings. split; [|split].
  - apply configured_run; assumption.
  - intros fields Hs Hc Hw fields'. rewrite Hs in Hc.
    destruct (first_run E files fields Hflag Htty Hs Hc Hw) as (H1 & H2 & H3).
    repeat split; try assumption.
    + apply lookup_set_field_eq.
    + intros k Hk. apply lookup_set_field_ne, Hk.
  - intros Hbad. rewrite terminal_run, configure_run by assumption. cbn [fs].
    fold settings. cbv zeta.
    assert (Hrest : stdout_of (init_events E ++ settings_events E files) = []).
    { rewrite stdout_of_app, stdout_of_init, stdout_of_settings. reflexivity. }
    destruct settings; try contradiction; cbn [configured opt_get value_is_string];
      unfold bind, throw; cbn [exit_status fst snd fs trace logged];
      (split; [reflexivity|]); (split; [reflexivity|]); exact Hrest.
Qed.

Lemma X7_witness :
  fst (run (RT := Node.runtime) terminal with_settings) = 0
  /\ fs (snd (run (RT := Node.runtime) terminal with_settings))
     = <[settings_path (RT := Node.runtime) terminal
         := Readable (JSON_stringify_pretty (Runtime := Node.runtime)
              (VObj [("theme", VStr "dark"); ("statusLine", statusline_entry)]))]>
         with_settings
  /\ stdout_of (trace (snd (run (RT := Node.runtime) terminal with_settings)))
     = configured_lines.
Proof.
  pose proof (X7_terminal_run_configures (RT := Node.runtime) terminal with_settings
                eq_refl eq_refl) as (_ & H & _).
  destruct (H [("theme", VStr "dark")]) as (H1 & H2 & H3 & _).
  - vm_compute. reflexivity.
  - vm_compute. reflexivity.
  - vm_compute. discriminate.
  - split; [exact H1|]. split; [exact H2|exact H3].
Defined.

Lemma spawns_of_app (a b : list event) : spawns_of (a ++ b) = spawns_of a ++ spawns_of b.
Proof. apply List.filter_app. Qed.

Lemma spawns_of_none (t : list event) :
  Forall (fun e => is_spawn e = false) t -> spawns_of t = [].
Proof.
  induction 1 as [|e t He _ IH]; [reflexivity|].
  unfold spawns_of in *. cbn [List.filter]. rewrite He. exact IH.
Qed.

Lemma probe_no_spawn (t : list event) :
  Forall is_probe t -> Forall (fun e => is_spawn e = false) t.
Proof.
  intros H. eapply Forall_impl; [exact H|]. intros [] He; try contradiction; reflexivity.
Qed.

(** X8: there is no throttle on the refresh: every render run that gets
    JSON on standard input starts the fetch-only child exactly once when a
    credential source yields a token, however recent the snapshot in the
    cache is and whether or not the render then succeeds; without a token no
    child is started. *)
Theorem X8_every_render_starts_one_child `{RT : Runtime} (E : Env)
    (files : gmap string file) (raw : string) (data : value) :
  fetch_only E = false -> stdin_isTTY E = false ->
  stdin_data E = Some raw -> Str.trim raw <> EmptyString ->
  JSON_parse (Str.trim raw) = Some data ->
  spawns_of (trace (snd (run E files)))
  = match first_some (credential_sources E files) with
    | Some _ => [EvSpawn ["--fetch-only"] (IS_WIN E)]
    | None => []
    end.
Proof.
  intros Hflag Htty Hs Hne Hp.
  rewrite (render_mode_run E files raw data) by assumption.
  set (st2 := {| fs := files; trace := _ |}).
  destruct (fetchUsage_exact E st2) as (t & Ht & Hfetch).
  change (fs st2) with files in Hfetch.
  set (sp := match first_some (credential_sources E files) with
             | Some _ => [EvSpawn ["--fetch-only"] (IS_WIN E)]
             | None => []
             end) in *.
  unfold bind at 1. rewrite Hfetch.
  destruct (render E data (loaded files (CACHE_FILE E)) (logged st2 (EvTrigger :: t ++ sp)))
    as [o st'] eqn:Hrender.
  destruct (footprint_render E (fun e => is_spawn e = false) data _
              ltac:(reflexivity) ltac:(reflexivity) _ _ _ Hrender) as (t' & Htr & Hq & _).
  cbn [snd]. rewrite Htr. cbn [logged trace st2].
  rewrite !spawns_of_app.
  assert (Hinit : spawns_of (init_events E) = []).
  { unfold init_events. destruct (IS_WIN E); reflexivity. }
  assert (Hcache : spawns_of (cache_read_events E files) = []).
  { unfold cache_read_events. destruct (files !! CACHE_FILE E); reflexivity. }
  rewrite Hinit, Hcache, (spawns_of_none t' Hq).
  change (EvTrigger :: t ++ sp) with ([EvTrigger] ++ t ++ sp).
  rewrite !spawns_of_app, (spawns_of_none t (probe_no_spawn t Ht)).
  cbn [spawns_of List.filter is_spawn app]. rewrite app_nil_r.
  unfold sp. destruct (first_some (credential_sources E files)); reflexivity.
Qed.

Lemma X8_witness :
  spawns_of (trace (snd (run (RT := Node.runtime) (session session_text) cached)))
  = [EvSpawn ["--fetch-only"] false].
Proof.
  apply (X8_every_render_starts_one_child (RT := Node.runtime) (session session_text)
           cached session_text (default VNull (@JSON_parse Node.runtime session_text))).
  - reflexivity.
  - reflexivity.
  - reflexivity.
  - vm_compute. discriminate.
  - vm_compute. reflexivity.
Defined.

